(** * Monetary-amount formatting of wp-checkout

    A shallow embedding of [formatMonetaryAmountForLocale] and its private
    helpers, in the two versions the repository carries:

    - [Checkout]: packages/wp-checkout/src/lib/format-monetary-amount-for-locale.js
    - [Part000]:  the older copy of the same file (unnamed/part_000)

    and of [isApplePayAvailable] of the checkout container ([Part001],
    unnamed/part_001), followed by the properties of these functions. *)

From Stdlib Require Import ZArith QArith List Bool Ascii String Lia DecimalString.
From Equations Require Import Equations.
Import ListNotations.

Local Close Scope Q_scope.
Local Open Scope string_scope.
Local Open Scope Z_scope.

(* ===================================================================== *)
(** ** The JavaScript values and built-ins the code relies on *)
(* ===================================================================== *)

(** Strings are sequences of bytes: ASCII text as it is, the currency
    symbols £, € and ¥ by their UTF-8 encoding.  The codes the [switch]
    statements compare against are ASCII; [toUpperCase] and [toLowerCase]
    below are those of JavaScript on ASCII strings ([is_ascii]), and say
    nothing of the case mapping of other characters. *)

(** A JS number.  A finite double is carried by its exact value; [-0], [NaN]
    and the infinities are the values [Number.isInteger], [Math.abs] and
    [Math.sign] treat apart.  An integer-valued double is handled as the
    integer it is: [Math.abs], [Math.sign], [%] and the comparisons are
    exact on doubles; the division is not, and [Math_floor_div] rounds its
    quotient as binary64 does. *)
Inductive number : Type :=
| Finite (q : Q)
| NegZero
| NaN
| Infinity (negative : bool).

(** The arguments a caller can pass. *)
Inductive value : Type :=
| VString (s : string)        (* a string (lodash [isString]) *)
| VNumber (n : number)        (* [typeof v === 'number'] *)
| VNumberObject (n : number)  (* [new Number(n)]: [v instanceof Number] *)
| VOther.                     (* undefined, null, booleans, other objects *)

(** The integer [z] as a JS number, e.g. the literal [500] or [-500]. *)
Definition Int (z : Z) : value := VNumber (Finite (inject_Z z)).

(** What a [throw] carries: the code throws bare strings; the runtime throws
    a [TypeError] when [undefined] is destructured. *)
Inductive exn : Type :=
| ThrowString (msg : string)
| TypeError.

Inductive result (A : Type) : Type :=
| Return (a : A)
| Throw (e : exn).
Arguments Return {A} a.
Arguments Throw {A} e.

Definition bind {A B : Type} (r : result A) (k : A -> result B) : result B :=
  match r with
  | Return a => k a
  | Throw e => Throw e
  end.

Notation "'const' x '<-' e ';;' k" := (bind e (fun x => k))
  (at level 10, x name, e at level 100, k at level 200).

Module JS.

(** [Number.isInteger(n)] on a primitive number. *)
Definition Number_isInteger (n : number) : bool :=
  match n with
  | Finite q => Qnum q mod Zpos (Qden q) =? 0
  | NegZero => true
  | NaN | Infinity _ => false
  end.

(** The integer an integer-valued number stands for; [-0] is [0] for
    [Math.abs], and [Math.sign(-0)] is [-0], which [>= 0] and [0 ===]
    do not tell from [0]. *)
Definition integerValue (n : number) : Z :=
  match n with
  | Finite q => Qnum q / Zpos (Qden q)
  | _ => 0
  end.

Definition Math_abs (n : number) : Z := Z.abs (integerValue n).
Definition Math_sign (n : number) : Z := Z.sgn (integerValue n).

(** The integer nearest to [N / D] for [0 < D], a tie going to the even
    one. *)
Definition round_half_even (N D : Z) : Z :=
  let q := N / D in
  let r := N mod D in
  if 2 * r <? D then q
  else if D <? 2 * r then q + 1
  else if Z.even q then q else q + 1.

(** The binary exponent of the 53-bit significand of [x / d], for
    positive integers: the [e] with [2^52 <= x / d / 2^e < 2^53]. *)
Definition quotient_exponent (x d : Z) : Z :=
  let e0 := Z.log2 x - Z.log2 d - 53 in
  let below :=
    if 0 <=? e0 + 53 then x <? d * 2 ^ (e0 + 53)
    else x * 2 ^ (- (e0 + 53)) <? d in
  if below then e0 else e0 + 1.

(** [Math.floor(x / d)] for an integer-valued double [x] and a positive
    integer [d]: the quotient is the binary64 number nearest to [x / d]
    (53 significant bits, ties to even), of which the floor is taken.
    The quotients of the code are neither subnormal nor infinite. *)
Definition Math_floor_div (x d : Z) : Z :=
  if x =? 0 then 0
  else
    let e := quotient_exponent (Z.abs x) d in
    if 0 <=? e then Z.sgn x * (round_half_even (Z.abs x) (d * 2 ^ e) * 2 ^ e)
    else (Z.sgn x * round_half_even (Z.abs x * 2 ^ (- e)) d) / 2 ^ (- e).

(** Closes a goal [2 * Math_floor_div x 1000 <= x] when [1000 <= x] is at
    hand: the quotient of a division by 1000 is at most half the
    dividend, rounding included. *)
Ltac floor_div_half :=
  match goal with
  | |- 2 * Math_floor_div ?x 1000 <= ?x =>
      let Hup := fresh "Hup" in
      let Hexp := fresh "Hexp" in
      let He := fresh "He" in
      let Hp := fresh "Hp" in
      let Hq := fresh "Hq" in
      let Hy := fresh "Hy" in
      let Hpow := fresh "Hpow" in
      let Hlo := fresh "Hlo" in
      assert (Hup : forall N D, round_half_even N D <= N / D + 1)
        by (intros N D; unfold round_half_even;
            destruct (2 * (N mod D) <? D); [lia|];
            destruct (D <? 2 * (N mod D)); [lia|];
            destruct (Z.even (N / D)); lia);
      assert (Hexp : quotient_exponent x 1000 <= Z.log2 x - 61)
        by (unfold quotient_exponent; change (Z.log2 1000) with 9;
            match goal with
            | |- (if ?b then _ else _) <= _ => destruct b
            end; lia);
      unfold Math_floor_div;
      destruct (Z.eqb_spec x 0); [lia|];
      rewrite Z.abs_eq, Z.sgn_pos by lia;
      destruct (Z.leb_spec 0 (quotient_exponent x 1000)) as [He|He];
      [ assert (Hp : 0 < 2 ^ quotient_exponent x 1000)
          by (apply Z.pow_pos_nonneg; lia);
        pose proof (Hup x (1000 * 2 ^ quotient_exponent x 1000)) as Hy;
        pose proof (Z.mul_div_le x (1000 * 2 ^ quotient_exponent x 1000)
                                 ltac:(lia)) as Hq;
        assert (Hpow : 2 ^ quotient_exponent x 1000 * 2 ^ 61 <= x)
          by (rewrite <- Z.pow_add_r by lia;
              destruct (Z.log2_spec x ltac:(lia)) as [Hlo _];
              eapply Z.le_trans; [|exact Hlo];
              apply Z.pow_le_mono_r; lia);
        change (2 ^ 61) with 2305843009213693952 in Hpow;
        nia
      | assert (Hp : 0 < 2 ^ (- quotient_exponent x 1000))
          by (apply Z.pow_pos_nonneg; lia);
        pose proof (Hup (x * 2 ^ (- quotient_exponent x 1000)) 1000) as Hy;
        pose proof (Z.mul_div_le (x * 2 ^ (- quotient_exponent x 1000)) 1000
                                 ltac:(lia)) as Hq;
        rewrite Z.mul_1_l;
        pose proof (Z.mul_div_le
                      (round_half_even (x * 2 ^ (- quotient_exponent x 1000)) 1000)
                      (2 ^ (- quotient_exponent x 1000)) Hp) as Hpow;
        nia ]
  end.

(** [String.prototype.toUpperCase] and [toLowerCase] on strings of ASCII
    characters: the letters are mapped, the rest is kept.  The bytes of
    other characters are kept too, which is not the Unicode case mapping of
    JavaScript; a statement that needs the mapping of an arbitrary code
    to be the real one takes [is_ascii] of the code as a hypothesis. *)
Definition upper_char (c : ascii) : ascii :=
  let n := nat_of_ascii c in
  if (97 <=? n)%nat && (n <=? 122)%nat then ascii_of_nat (n - 32) else c.

Definition lower_char (c : ascii) : ascii :=
  let n := nat_of_ascii c in
  if (65 <=? n)%nat && (n <=? 90)%nat then ascii_of_nat (n + 32) else c.

Fixpoint map_string (f : ascii -> ascii) (s : string) : string :=
  match s with
  | EmptyString => EmptyString
  | String c s' => String (f c) (map_string f s')
  end.

Definition toUpperCase (s : string) : string := map_string upper_char s.
Definition toLowerCase (s : string) : string := map_string lower_char s.

(** [Number.prototype.toString] of an integer (below 1e21): its decimal
    digits, with a leading [-] when negative. *)
Definition toString (n : Z) : string := NilZero.string_of_int (Z.to_int n).

Fixpoint repeat_char (c : ascii) (n : nat) : string :=
  match n with
  | O => EmptyString
  | S n' => String c (repeat_char c n')
  end.

(** [s.padStart(targetLength, pad)] for a one-character [pad]. *)
Definition padStart (targetLength : nat) (pad : ascii) (s : string) : string :=
  repeat_char pad (targetLength - String.length s) ++ s.

(** [array.join(separator)] on an array of strings. *)
Definition join (separator : string) (parts : list string) : string :=
  String.concat separator parts.

(** [s.concat(x)] where [x] may be [undefined]. *)
Definition concat_arg (x : option string) : string :=
  match x with
  | Some s => s
  | None => "undefined"
  end.

(** A [case] label list of a [switch] on a string. *)
Definition is_case (s : string) (labels : list string) : bool :=
  existsb (String.eqb s) labels.

End JS.

(** The objects the helpers return. *)
Record Separators : Type :=
  { decimalSeparator : string; groupSeparator : string }.

Record DigitGroups : Type :=
  { integerPart : list string; fractionalPart : option string }.

(* ===================================================================== *)
(** ** packages/wp-checkout/src/lib/format-monetary-amount-for-locale.js *)
(* ===================================================================== *)

Module Checkout.
Import JS.

(** Customary decimal and group separators in a given locale.  The
    [switch] has no [default]: other codes fall off the end of the
    function, which then returns [undefined] ([None]). *)
Definition separatorsForLocale (localeCode : string) : result (option Separators) :=
  let normalizedLocaleCode := toLowerCase localeCode in
  if is_case normalizedLocaleCode ["gb"; "jp"; "nz"; "us"] then
    Return (Some {| decimalSeparator := "."; groupSeparator := "," |})
  else if is_case normalizedLocaleCode ["au"] then
    Return (Some {| decimalSeparator := "."; groupSeparator := " " |})
  else if is_case normalizedLocaleCode ["br"] then
    Return (Some {| decimalSeparator := ","; groupSeparator := "." |})
  else Return None.

(** Graphical currency symbol. *)
Definition symbolForCurrency (currencyCode : string) : result string :=
  let normalizedCurrencyCode := toUpperCase currencyCode in
  if is_case normalizedCurrencyCode ["AUD"; "CAD"; "NZD"; "USD"] then Return "$"
  else if is_case normalizedCurrencyCode ["GBP"] then Return "£"
  else if is_case normalizedCurrencyCode ["EUR"] then Return "€"
  else if is_case normalizedCurrencyCode ["JPY"] then Return "¥"
  else if is_case normalizedCurrencyCode ["BRL"] then Return "R$"
  else Throw (ThrowString
                ("Symbol for currency code not defined: " ++ normalizedCurrencyCode)).

(** Formats fractional currency units. *)
Definition minorUnitsAsDecimalForCurrency
           (currencyCode : string) (absoluteAmount : Z) : result string :=
  let normalizedCurrencyCode := toUpperCase currencyCode in
  if is_case normalizedCurrencyCode ["AUD"; "CAD"; "EUR"; "GBP"; "NZD"; "USD"] then
    if (absoluteAmount <? 0) || (100 <=? absoluteAmount) then
      Throw (ThrowString EmptyString)
    else Return (padStart 2 "0" (toString absoluteAmount))
  else if is_case normalizedCurrencyCode ["JPY"] then
    Throw (ThrowString
             ("Currency does not have a minimal unit: " ++ normalizedCurrencyCode))
  else
    Throw (ThrowString
             ("Minor unit format for currency code not defined: "
                ++ normalizedCurrencyCode)).

(** Number of minor units per major unit. *)
Definition minorUnitsPerMajorUnitForCurrency (currencyCode : string) : result Z :=
  let normalizedCurrencyCode := toUpperCase currencyCode in
  if is_case normalizedCurrencyCode ["JPY"] then Return 1
  else if is_case normalizedCurrencyCode ["BRL"; "CAD"; "EUR"; "GBP"; "NZD"; "USD"] then
    Return 100
  else Throw (ThrowString "Unknown currency exponent").

(** The base 1000 digits of an integer, from most to least significant.
    [%] is the remainder that takes the sign of the dividend ([Z.rem]),
    exact on doubles; [Math.floor(x / 1000)] is [Math_floor_div]. *)
Equations? groupDigitsAccum (localAmount : Z) (localDigits : list string)
  : list string by wf (Z.to_nat (Z.log2 localAmount)) lt :=
  groupDigitsAccum localAmount localDigits with Z_lt_dec localAmount 1000 := {
    | left _ => [toString localAmount] ++ localDigits
    | right _ =>
        let nextGroup := Z.rem localAmount 1000 in
        let remainder := Math_floor_div localAmount 1000 in
        groupDigitsAccum remainder
          ([padStart 3 "0" (toString nextGroup)] ++ localDigits) }.
Proof.
  (* the number of binary digits drops with each division by 1000 *)
  assert (Hpos : 0 < localAmount) by lia.
  assert (Hhalf : 2 * Math_floor_div localAmount 1000 <= localAmount)
    by floor_div_half.
  apply Z2Nat.inj_lt; try apply Z.log2_nonneg.
  destruct (Z.log2_spec localAmount Hpos) as [_ Hhi].
  rewrite Z.pow_succ_r in Hhi by apply Z.log2_nonneg.
  destruct (Z_le_gt_dec (Math_floor_div localAmount 1000) 0) as [Hle|Hgt].
  - rewrite Z.log2_nonpos by exact Hle.
    apply Z.log2_pos. lia.
  - apply Z.log2_lt_pow2; lia.
Qed.

Definition groupDigits (amount : Z) : list string := groupDigitsAccum amount [].

(** Separate an amount into its fractional part and the grouped digits of
    its integer part.  [absoluteAmount] is an integer here, so of the
    guard only [absoluteAmount >= 0] can fail. *)
Definition digitGroupsOfAmountForCurrency
           (currencyCode : string) (absoluteAmount : Z) : result DigitGroups :=
  if negb (absoluteAmount >=? 0) then
    Throw (ThrowString "absoluteAmount parameter must be a nonnegative integer.")
  else if 0 =? absoluteAmount then
    const fractionalPart <- minorUnitsAsDecimalForCurrency currencyCode 0 ;;
    Return {| integerPart := ["0"]; fractionalPart := Some fractionalPart |}
  else
    const base <- minorUnitsPerMajorUnitForCurrency currencyCode ;;
    if 1 =? base then
      Return {| integerPart := groupDigits absoluteAmount; fractionalPart := None |}
    else
      const fractionalPart <-
        minorUnitsAsDecimalForCurrency currencyCode (Z.rem absoluteAmount base) ;;
      let majorUnitAmount := Math_floor_div absoluteAmount base in
      Return {| integerPart := groupDigits majorUnitAmount;
                fractionalPart := Some fractionalPart |}.

Definition renderAmountWithSeparatorsForCurrencyAndLocale
           (absoluteAmount : Z) (localeCode currencyCode : string) : result string :=
  const groups <- digitGroupsOfAmountForCurrency currencyCode absoluteAmount ;;
  const separators <- separatorsForLocale localeCode ;;
  match separators with
  | None => Throw TypeError
  | Some {| decimalSeparator := decimalSeparator; groupSeparator := groupSeparator |} =>
      const base <- minorUnitsPerMajorUnitForCurrency currencyCode ;;
      if 1 =? base then Return (join groupSeparator (integerPart groups))
      else
        Return (join groupSeparator (integerPart groups)
                  ++ decimalSeparator ++ concat_arg (fractionalPart groups))
  end.

(** Symbol and amount, e.g. $100. *)
Definition formatSymbolAmount
           (amountSign absoluteAmount : Z) (localeCode currencyCode : string)
  : result string :=
  const symbol <- symbolForCurrency currencyCode ;;
  let sign := if amountSign >=? 0 then EmptyString else "-" in
  if 0 =? amountSign then Return (symbol ++ "0")
  else
    const rendered <-
      renderAmountWithSeparatorsForCurrencyAndLocale absoluteAmount localeCode currencyCode ;;
    Return (sign ++ (symbol ++ rendered)).

(** Symbol, amount, and currency code, e.g. $100 NZD. *)
Definition formatSymbolAmountCode
           (amountSign absoluteAmount : Z) (localeCode currencyCode : string)
  : result string :=
  const formatted <- formatSymbolAmount amountSign absoluteAmount localeCode currencyCode ;;
  Return (formatted ++ (" " ++ currencyCode)).

(** Format a monetary amount according to the custom of a given locale. *)
Definition formatMonetaryAmountForLocale
           (localeCode currencyCode amount : value) : result string :=
  match localeCode with
  | VString localeCode =>
      match currencyCode with
      | VString currencyCode =>
          match amount with
          | VNumber n =>
              if negb (Number_isInteger n) then
                Throw (ThrowString "amount parameter must be an integer.")
              else
                let absoluteAmount := Math_abs n in
                let amountSign := Math_sign n in
                let normalizedLocaleCode := toLowerCase localeCode in
                let normalizedCurrencyCode := toUpperCase currencyCode in
                if is_case normalizedLocaleCode ["us"] then
                  if is_case normalizedCurrencyCode ["USD"; "JPY"; "GBP"; "EUR"] then
                    formatSymbolAmount
                      amountSign absoluteAmount normalizedLocaleCode normalizedCurrencyCode
                  else
                    formatSymbolAmountCode
                      amountSign absoluteAmount normalizedLocaleCode normalizedCurrencyCode
                else Throw (ThrowString "Unhandled locale")
          | VNumberObject _ =>
              (* [Number.isInteger] is false of every object *)
              Throw (ThrowString "amount parameter must be an integer.")
          | _ => Throw (ThrowString "amount parameter must be a number.")
          end
      | _ => Throw (ThrowString "currency parameter must be a string.")
      end
  | _ => Throw (ThrowString "locale parameter must be a string.")
  end.

(** The [case] labels of [supportedCurrencyName] with the name each one
    returns, in the order of the [switch]. *)
Definition currency_names : list (string * string) :=
  [("AED", "United Arab Emirates Dirham");
   ("AFN", "Afghan Afghani");
   ("ALL", "Albanian Lek");
   ("AMD", "Armenian Dram");
   ("ANG", "Netherlands Antillean Guilder");
   ("AOA", "Angolan Kwanza");
   ("ARS", "Argentine Peso");
   ("AUD", "Australian Dollar");
   ("AWG", "Aruban Florin");
   ("AZN", "Azerbaijani Manat");
   ("BAM", "Bosnia-Herzegovina Convertible Mark");
   ("BBD", "Barbadian Dollar");
   ("BDT", "Bangladeshi Taka");
   ("BGN", "Bulgarian Lev");
   ("BHD", "Bahraini Dinar");
   ("BIF", "Burundian Franc");
   ("BMD", "Bermudan Dollar");
   ("BND", "Brunei Dollar");
   ("BOB", "Bolivian Boliviano");
   ("BRL", "Brazilian Real");
   ("BSD", "Bahamian Dollar");
   ("BTC", "Bitcoin");
   ("BTN", "Bhutanese Ngultrum");
   ("BWP", "Botswanan Pula");
   ("BYN", "Belarusian Ruble");
   ("BZD", "Belize Dollar");
   ("CAD", "Canadian Dollar");
   ("CDF", "Congolese Franc");
   ("CHF", "Swiss Franc");
   ("CLF", "Chilean Unit of Account (UF)");
   ("CLP", "Chilean Peso");
   ("CNH", "Chinese Yuan (Offshore)");
   ("CNY", "Chinese Yuan");
   ("COP", "Colombian Peso");
   ("CRC", "Costa Rican Colón");
   ("CUC", "Cuban Convertible Peso");
   ("CUP", "Cuban Peso");
   ("CVE", "Cape Verdean Escudo");
   ("CZK", "Czech Republic Koruna");
   ("DJF", "Djiboutian Franc");
   ("DKK", "Danish Krone");
   ("DOP", "Dominican Peso");
   ("DZD", "Algerian Dinar");
   ("EGP", "Egyptian Pound");
   ("ERN", "Eritrean Nakfa");
   ("ETB", "Ethiopian Birr");
   ("EUR", "Euro");
   ("FJD", "Fijian Dollar");
   ("FKP", "Falkland Islands Pound");
   ("GBP", "British Pound Sterling");
   ("GEL", "Georgian Lari");
   ("GGP", "Guernsey Pound");
   ("GHS", "Ghanaian Cedi");
   ("GIP", "Gibraltar Pound");
   ("GMD", "Gambian Dalasi");
   ("GNF", "Guinean Franc");
   ("GTQ", "Guatemalan Quetzal");
   ("GYD", "Guyanaese Dollar");
   ("HKD", "Hong Kong Dollar");
   ("HNL", "Honduran Lempira");
   ("HRK", "Croatian Kuna");
   ("HTG", "Haitian Gourde");
   ("HUF", "Hungarian Forint");
   ("IDR", "Indonesian Rupiah");
   ("ILS", "Israeli New Sheqel");
   ("IMP", "Manx pound");
   ("INR", "Indian Rupee");
   ("IQD", "Iraqi Dinar");
   ("IRR", "Iranian Rial");
   ("ISK", "Icelandic Króna");
   ("JEP", "Jersey Pound");
   ("JMD", "Jamaican Dollar");
   ("JOD", "Jordanian Dinar");
   ("JPY", "Japanese Yen");
   ("KES", "Kenyan Shilling");
   ("KGS", "Kyrgystani Som");
   ("KHR", "Cambodian Riel");
   ("KMF", "Comorian Franc");
   ("KPW", "North Korean Won");
   ("KRW", "South Korean Won");
   ("KWD", "Kuwaiti Dinar");
   ("KYD", "Cayman Islands Dollar");
   ("KZT", "Kazakhstani Tenge");
   ("LAK", "Laotian Kip");
   ("LBP", "Lebanese Pound");
   ("LKR", "Sri Lankan Rupee");
   ("LRD", "Liberian Dollar");
   ("LSL", "Lesotho Loti");
   ("LYD", "Libyan Dinar");
   ("MAD", "Moroccan Dirham");
   ("MDL", "Moldovan Leu");
   ("MGA", "Malagasy Ariary");
   ("MKD", "Macedonian Denar");
   ("MMK", "Myanma Kyat");
   ("MNT", "Mongolian Tugrik");
   ("MOP", "Macanese Pataca");
   ("MRO", "Mauritanian Ouguiya");
   ("MUR", "Mauritian Rupee");
   ("MVR", "Maldivian Rufiyaa");
   ("MWK", "Malawian Kwacha");
   ("MXN", "Mexican Peso");
   ("MYR", "Malaysian Ringgit");
   ("MZN", "Mozambican Metical");
   ("NAD", "Namibian Dollar");
   ("NGN", "Nigerian Naira");
   ("NIO", "Nicaraguan Córdoba");
   ("NOK", "Norwegian Krone");
   ("NPR", "Nepalese Rupee");
   ("NZD", "New Zealand Dollar");
   ("OMR", "Omani Rial");
   ("PAB", "Panamanian Balboa");
   ("PEN", "Peruvian Nuevo Sol");
   ("PGK", "Papua New Guinean Kina");
   ("PHP", "Philippine Peso");
   ("PKR", "Pakistani Rupee");
   ("PLN", "Polish Zloty");
   ("PYG", "Paraguayan Guarani");
   ("QAR", "Qatari Rial");
   ("RON", "Romanian Leu");
   ("RSD", "Serbian Dinar");
   ("RUB", "Russian Ruble");
   ("RWF", "Rwandan Franc");
   ("SAR", "Saudi Riyal");
   ("SBD", "Solomon Islands Dollar");
   ("SCR", "Seychellois Rupee");
   ("SDG", "Sudanese Pound");
   ("SEK", "Swedish Krona");
   ("SGD", "Singapore Dollar");
   ("SHP", "Saint Helena Pound");
   ("SLL", "Sierra Leonean Leone");
   ("SOS", "Somali Shilling");
   ("SRD", "Surinamese Dollar");
   ("SSP", "South Sudanese Pound");
   ("STD", "São Tomé and Príncipe Dobra");
   ("SVC", "Salvadoran Colón");
   ("SYP", "Syrian Pound");
   ("SZL", "Swazi Lilangeni");
   ("THB", "Thai Baht");
   ("TJS", "Tajikistani Somoni");
   ("TMT", "Turkmenistani Manat");
   ("TND", "Tunisian Dinar");
   ("TOP", "Tongan Paanga");
   ("TRY", "Turkish Lira");
   ("TTD", "Trinidad and Tobago Dollar");
   ("TWD", "New Taiwan Dollar");
   ("TZS", "Tanzanian Shilling");
   ("UAH", "Ukrainian Hryvnia");
   ("UGX", "Ugandan Shilling");
   ("USD", "United States Dollar");
   ("UYU", "Uruguayan Peso");
   ("UZS", "Uzbekistan Som");
   ("VEF", "Venezuelan Bolívar Fuerte");
   ("VND", "Vietnamese Dong");
   ("VUV", "Vanuatu Vatu");
   ("WST", "Samoan Tala");
   ("XAF", "CFA Franc BEAC");
   ("XCD", "East Caribbean Dollar");
   ("XOF", "CFA Franc BCEAO");
   ("XPF", "CFP Franc");
   ("YER", "Yemeni Rial");
   ("ZAR", "South African Rand");
   ("ZMW", "Zambian Kwacha");
   ("ZWL", "Zimbabwean Dollar")].

(** Returns a human readable name for a given currency code.  Throws an
    error on currencies not supported by the billing backend. *)
Definition supportedCurrencyName (currencyCode : string) : result string :=
  let normalizedCurrencyCode := toUpperCase currencyCode in
  match find (fun entry => String.eqb normalizedCurrencyCode (fst entry)) currency_names with
  | Some entry => Return (snd entry)
  | None => Throw (ThrowString "Currency not supported.")
  end.

End Checkout.

(* ===================================================================== *)
(** ** The older copy of the file (unnamed/part_000) *)
(* ===================================================================== *)

Module Part000.
Import JS.

(** Customary decimal and group separators in a given locale. *)
Definition separatorsForLocale (localeCode : string) : result (option Separators) :=
  let normalizedLocaleCode := toLowerCase localeCode in
  if is_case normalizedLocaleCode ["gb"; "jp"; "nz"; "us"] then
    Return (Some {| decimalSeparator := "."; groupSeparator := "," |})
  else if is_case normalizedLocaleCode ["au"] then
    Return (Some {| decimalSeparator := "."; groupSeparator := " " |})
  else if is_case normalizedLocaleCode ["br"] then
    Return (Some {| decimalSeparator := ","; groupSeparator := "." |})
  else Return None.

(** Graphical currency symbol: no entry for BRL here. *)
Definition symbolForCurrency (currencyCode : string) : result string :=
  let normalizedCurrencyCode := toUpperCase currencyCode in
  if is_case normalizedCurrencyCode ["AUD"; "CAD"; "NZD"; "USD"] then Return "$"
  else if is_case normalizedCurrencyCode ["GBP"] then Return "£"
  else if is_case normalizedCurrencyCode ["EUR"] then Return "€"
  else if is_case normalizedCurrencyCode ["JPY"] then Return "¥"
  else Throw (ThrowString "Unknown currency symbol").

(** Formats fractional currency units: no check of the range here. *)
Definition minorUnitsAsDecimalForCurrency
           (currencyCode : string) (absoluteAmount : Z) : result string :=
  let normalizedCurrencyCode := toUpperCase currencyCode in
  if is_case normalizedCurrencyCode ["EUR"; "GBP"; "NZD"; "USD"] then
    Return (padStart 2 "0" (toString absoluteAmount))
  else if is_case normalizedCurrencyCode ["JPY"] then
    Throw (ThrowString "Currency does not have a minimal unit.")
  else Throw (ThrowString "Unknown minor unit format").

(** Number of minor units per major unit. *)
Definition minorUnitsPerMajorUnitForCurrency (currencyCode : string) : result Z :=
  let normalizedCurrencyCode := toUpperCase currencyCode in
  if is_case normalizedCurrencyCode ["JPY"] then Return 1
  else if is_case normalizedCurrencyCode ["BRL"; "CAD"; "EUR"; "GBP"; "NZD"; "USD"] then
    Return 100
  else Throw (ThrowString "Unknown currency exponent").

Equations? groupDigitsAccum (localAmount : Z) (localDigits : list string)
  : list string by wf (Z.to_nat (Z.log2 localAmount)) lt :=
  groupDigitsAccum localAmount localDigits with Z_lt_dec localAmount 1000 := {
    | left _ => [toString localAmount] ++ localDigits
    | right _ =>
        let nextGroup := Z.rem localAmount 1000 in
        let remainder := Math_floor_div localAmount 1000 in
        groupDigitsAccum remainder
          ([padStart 3 "0" (toString nextGroup)] ++ localDigits) }.
Proof.
  assert (Hpos : 0 < localAmount) by lia.
  assert (Hhalf : 2 * Math_floor_div localAmount 1000 <= localAmount)
    by floor_div_half.
  apply Z2Nat.inj_lt; try apply Z.log2_nonneg.
  destruct (Z.log2_spec localAmount Hpos) as [_ Hhi].
  rewrite Z.pow_succ_r in Hhi by apply Z.log2_nonneg.
  destruct (Z_le_gt_dec (Math_floor_div localAmount 1000) 0) as [Hle|Hgt].
  - rewrite Z.log2_nonpos by exact Hle.
    apply Z.log2_pos. lia.
  - apply Z.log2_lt_pow2; lia.
Qed.

Definition groupDigits (amount : Z) : list string := groupDigitsAccum amount [].

Definition digitGroupsOfAmountForCurrency
           (currencyCode : string) (absoluteAmount : Z) : result DigitGroups :=
  if negb (absoluteAmount >=? 0) then
    Throw (ThrowString "absoluteAmount parameter must be a nonnegative integer.")
  else if 0 =? absoluteAmount then
    const fractionalPart <- minorUnitsAsDecimalForCurrency currencyCode 0 ;;
    Return {| integerPart := ["0"]; fractionalPart := Some fractionalPart |}
  else
    const base <- minorUnitsPerMajorUnitForCurrency currencyCode ;;
    if 1 =? base then
      Return {| integerPart := groupDigits absoluteAmount; fractionalPart := None |}
    else
      const fractionalPart <-
        minorUnitsAsDecimalForCurrency currencyCode (Z.rem absoluteAmount base) ;;
      let majorUnitAmount := Math_floor_div absoluteAmount base in
      Return {| integerPart := groupDigits majorUnitAmount;
                fractionalPart := Some fractionalPart |}.

Definition renderAmountWithSeparatorsForCurrencyAndLocale
           (absoluteAmount : Z) (localeCode currencyCode : string) : result string :=
  const groups <- digitGroupsOfAmountForCurrency currencyCode absoluteAmount ;;
  const separators <- separatorsForLocale localeCode ;;
  match separators with
  | None => Throw TypeError
  | Some {| decimalSeparator := decimalSeparator; groupSeparator := groupSeparator |} =>
      const base <- minorUnitsPerMajorUnitForCurrency currencyCode ;;
      if 1 =? base then Return (join groupSeparator (integerPart groups))
      else
        Return (join groupSeparator (integerPart groups)
                  ++ decimalSeparator ++ concat_arg (fractionalPart groups))
  end.

Definition formatSymbolAmount
           (amountSign absoluteAmount : Z) (localeCode currencyCode : string)
  : result string :=
  const symbol <- symbolForCurrency currencyCode ;;
  let sign := if amountSign >=? 0 then EmptyString else "-" in
  if 0 =? amountSign then Return (symbol ++ "0")
  else
    const rendered <-
      renderAmountWithSeparatorsForCurrencyAndLocale absoluteAmount localeCode currencyCode ;;
    Return (sign ++ (symbol ++ rendered)).

Definition formatSymbolAmountCode
           (amountSign absoluteAmount : Z) (localeCode currencyCode : string)
  : result string :=
  const formatted <- formatSymbolAmount amountSign absoluteAmount localeCode currencyCode ;;
  Return (formatted ++ (" " ++ currencyCode)).

Definition formatMonetaryAmountForLocale
           (localeCode currencyCode amount : value) : result string :=
  match localeCode with
  | VString localeCode =>
      match currencyCode with
      | VString currencyCode =>
          match amount with
          | VNumber n =>
              if negb (Number_isInteger n) then
                Throw (ThrowString "amount parameter must be an integer.")
              else
                let absoluteAmount := Math_abs n in
                let amountSign := Math_sign n in
                let normalizedLocaleCode := toLowerCase localeCode in
                let normalizedCurrencyCode := toUpperCase currencyCode in
                if is_case normalizedLocaleCode ["us"] then
                  if is_case normalizedCurrencyCode ["USD"; "JPY"; "GBP"; "EUR"] then
                    formatSymbolAmount
                      amountSign absoluteAmount normalizedLocaleCode normalizedCurrencyCode
                  else
                    formatSymbolAmountCode
                      amountSign absoluteAmount normalizedLocaleCode normalizedCurrencyCode
                else Throw (ThrowString "Unhandled locale")
          | VNumberObject _ =>
              Throw (ThrowString "amount parameter must be an integer.")
          | _ => Throw (ThrowString "amount parameter must be a number.")
          end
      | _ => Throw (ThrowString "currency parameter must be a string.")
      end
  | _ => Throw (ThrowString "locale parameter must be a string.")
  end.

End Part000.

(* ===================================================================== *)
(** ** The checkout container (unnamed/part_001): [isApplePayAvailable] *)
(* ===================================================================== *)

Module Part001.

(** What a call of [window.ApplePaySession.canMakePayments()] does: it
    returns a value, of which [Boolean] keeps the truthiness, or it throws
    (also when [canMakePayments] is not a function). *)
Inductive probe : Type :=
| Answers (truthy : bool)
| Raises.

(** The part of [window] the function reads: whether [PaymentRequest] is
    truthy, and [ApplePaySession] when it is truthy. *)
Record Window : Type :=
  { PaymentRequest : bool; ApplePaySession : option probe }.

(** The state the function keeps and changes: its own property
    [canMakePayments] ([None] while [undefined]) and the number of errors
    it has sent to [console.error]. *)
Record State : Type :=
  { canMakePayments : option bool; console_errors : nat }.

Definition initial : State := {| canMakePayments := None; console_errors := 0 |}.

Definition isApplePayAvailable (window : Window) (st : State) : bool * State :=
  if negb (PaymentRequest window) then (false, st)
  else
    match canMakePayments st with
    | None =>
        match ApplePaySession window with
        | None =>
            (* [Boolean( undefined && ... )] *)
            (false, {| canMakePayments := Some false;
                       console_errors := console_errors st |})
        | Some (Answers truthy) =>
            (truthy, {| canMakePayments := Some truthy;
                        console_errors := console_errors st |})
        | Some Raises =>
            (false, {| canMakePayments := None;
                       console_errors := S (console_errors st) |})
        end
    | Some cached => (cached, st)
    end.

(** Successive calls, each in the window of its time: the results and the
    final state. *)
Fixpoint calls (windows : list Window) (st : State) : list bool * State :=
  match windows with
  | [] => ([], st)
  | window :: later =>
      let (available, st') := isApplePayAvailable window st in
      let (results, final) := calls later st' in
      (available :: results, final)
  end.

End Part001.

(* ===================================================================== *)
(** ** Vocabulary of the properties *)
(* ===================================================================== *)

(** The public entry point, as the properties call it. *)
Definition format (localeCode currencyCode : string) (amount : value) : result string :=
  Checkout.formatMonetaryAmountForLocale (VString localeCode) (VString currencyCode) amount.

Definition is_digit (c : ascii) : bool :=
  let n := nat_of_ascii c in (48 <=? n)%nat && (n <=? 57)%nat.

Fixpoint all_digits (s : string) : bool :=
  match s with
  | EmptyString => true
  | String c s' => is_digit c && all_digits s'
  end.

(** Number of occurrences of a character. *)
Fixpoint count_char (c : ascii) (s : string) : nat :=
  match s with
  | EmptyString => O
  | String d s' => (if Ascii.eqb c d then 1 else 0) + count_char c s'
  end.

(** What follows the first occurrence of a character, if it occurs. *)
Fixpoint after_first (c : ascii) (s : string) : option string :=
  match s with
  | EmptyString => None
  | String d s' => if Ascii.eqb c d then Some s' else after_first c s'
  end.

(** How many digits a string starts with. *)
Fixpoint leading_digits (s : string) : nat :=
  match s with
  | EmptyString => O
  | String c s' => if is_digit c then S (leading_digits s') else O
  end.

(** The number a string of decimal digits denotes. *)
Definition digit_value (c : ascii) : Z := Z.of_nat (nat_of_ascii c) - 48.

Fixpoint decimal_value_from (acc : Z) (s : string) : Z :=
  match s with
  | EmptyString => acc
  | String c s' => decimal_value_from (10 * acc + digit_value c) s'
  end.

Definition decimal_value (s : string) : Z := decimal_value_from 0 s.

(** The number a most-significant-first sequence of base-1000 groups denotes. *)
Definition groups_value (groups : list string) : Z :=
  fold_left (fun acc g => 1000 * acc + decimal_value g) groups 0.

(** A group written without padding: ["0"] itself, or no leading ["0"]. *)
Definition unpadded (g : string) : bool :=
  match g with
  | EmptyString => false
  | String c EmptyString => true
  | String c _ => negb (Ascii.eqb c "0")
  end.

(** The shape the specification gives the grouping of [n]: a first group of
    one to three digits without padding, then groups of exactly three
    digits, most significant first. *)
Definition well_grouped (n : Z) (groups : list string) : Prop :=
  exists first rest,
    groups = first :: rest /\
    all_digits first = true /\ unpadded first = true /\
    (1 <= String.length first <= 3)%nat /\
    Forall (fun g => all_digits g = true /\ String.length g = 3%nat) rest /\
    groups_value groups = n.

(** The shape alone of such a grouping, whatever it denotes. *)
Definition group_shape (groups : list string) : Prop :=
  exists first rest,
    groups = first :: rest /\
    all_digits first = true /\ unpadded first = true /\
    (1 <= String.length first <= 3)%nat /\
    Forall (fun g => all_digits g = true /\ String.length g = 3%nat) rest.

(** A string of ASCII characters only: on these [JS.toUpperCase] and
    [JS.toLowerCase] are the case mappings of JavaScript. *)
Fixpoint is_ascii (s : string) : bool :=
  match s with
  | EmptyString => true
  | String c s' => (nat_of_ascii c <? 128)%nat && is_ascii s'
  end.

(** The currencies section 4.6 of the specification lists with the
    two-digit convention. *)
Definition two_digit_currencies : list string :=
  ["USD"; "GBP"; "EUR"; "NZD"; "CAD"; "AUD"; "BRL"].

(** Those of them with a symbol, a base and a minor-unit rule in the code. *)
Definition rendered_two_digit_currencies : list string :=
  ["USD"; "GBP"; "EUR"; "NZD"; "CAD"].

(** The currencies whose nonzero amounts are rendered. *)
Definition rendered_currencies : list string :=
  ["USD"; "GBP"; "EUR"; "NZD"; "CAD"; "JPY"].

(** The currencies the [us] dispatch renders without their code. *)
Definition symbol_dispatch_set : list string := ["USD"; "JPY"; "GBP"; "EUR"].

(** The currencies with a symbol in the code. *)
Definition symbol_currencies : list string :=
  ["AUD"; "CAD"; "NZD"; "USD"; "GBP"; "EUR"; "JPY"; "BRL"].

(** What the dispatch makes of the symbol-and-amount rendering [body] of a
    normalized currency code: codes outside the dispatch set get a space
    and the code appended. *)
Definition with_code_suffix (normalizedCurrencyCode body : string) : string :=
  if JS.is_case normalizedCurrencyCode symbol_dispatch_set then body
  else body ++ (" " ++ normalizedCurrencyCode).

(** The sign prefix of a nonzero amount. *)
Definition sign_prefix (a : Z) : string := if a <? 0 then "-" else EmptyString.

(** A returned string with exactly one ["."], followed by exactly two
    digits. *)
Definition two_decimals (r : result string) : Prop :=
  exists s, r = Return s /\
            count_char "." s = 1%nat /\
            option_map leading_digits (after_first "." s) = Some 2%nat.

Definition two_decimals_b (r : result string) : bool :=
  match r with
  | Return s =>
      (count_char "." s =? 1)%nat &&
      match after_first "." s with
      | Some rest => (leading_digits rest =? 2)%nat
      | None => false
      end
  | Throw _ => false
  end.

(** A returned string without any ["."]. *)
Definition no_decimals (r : result string) : Prop :=
  exists s, r = Return s /\ count_char "." s = 0%nat.

(** Checks of what [toString] and [padStart] give, run on every number
    below a bound. *)
Definition below (bound : nat) (check : Z -> bool) : bool :=
  forallb (fun k => check (Z.of_nat k)) (seq 0 bound).

Definition group_head_ok (n : Z) : bool :=
  let g := JS.toString n in
  all_digits g && unpadded g && (1 <=? String.length g)%nat
    && (String.length g <=? 3)%nat && (decimal_value g =? n).

Definition group_tail_ok (n : Z) : bool :=
  let g := JS.padStart 3 "0" (JS.toString n) in
  all_digits g && (String.length g =? 3)%nat && (decimal_value g =? n).

Definition minor_units_ok (n : Z) : bool :=
  let g := JS.padStart 2 "0" (JS.toString n) in
  all_digits g && (String.length g =? 2)%nat && (decimal_value g =? n).

(** The keys of the locale table. *)
Definition locale_table_keys : list string := ["gb"; "jp"; "nz"; "us"; "au"; "br"].

(** Two codes that differ at most in the case of their letters. *)
Definition case_variant (s t : string) : Prop := JS.toLowerCase s = JS.toLowerCase t.

(** lodash's [isString], and the test [typeof amount === 'number' ||
    amount instanceof Number]. *)
Definition isString (v : value) : bool :=
  match v with
  | VString _ => true
  | _ => false
  end.

Definition is_number_value (v : value) : bool :=
  match v with
  | VNumber _ | VNumberObject _ => true
  | _ => false
  end.

(** The currencies with a two-digit minor-unit rule in the newer copy. *)
Definition minor_unit_currencies : list string :=
  ["AUD"; "CAD"; "EUR"; "GBP"; "NZD"; "USD"].

(** The decimal digits of a string, in order. *)
Fixpoint digits_of (s : string) : string :=
  match s with
  | EmptyString => EmptyString
  | String c s' => if is_digit c then String c (digits_of s') else digits_of s'
  end.

(** The result of a call, with [f] applied to the returned string. *)
Definition map_result (f : string -> string) (r : result string) : result string :=
  match r with
  | Return s => Return (f s)
  | Throw e => Throw e
  end.

(** The messages the entry point throws, apart from that of a currency
    without symbol, which carries the code. *)
Definition entry_point_errors : list string :=
  ["locale parameter must be a string.";
   "currency parameter must be a string.";
   "amount parameter must be a number.";
   "amount parameter must be an integer.";
   "Unhandled locale";
   "Unknown currency exponent";
   "Minor unit format for currency code not defined: BRL"].

(** What the guards inside the helpers throw. *)
Definition internal_guard_errors : list exn :=
  [ThrowString EmptyString;
   TypeError;
   ThrowString "absoluteAmount parameter must be a nonnegative integer.";
   ThrowString "Currency does not have a minimal unit: JPY"].

Definition is_upper_letter (c : ascii) : bool :=
  let n := nat_of_ascii c in (65 <=? n)%nat && (n <=? 90)%nat.

(** A code of three upper-case letters. *)
Definition is_currency_code (s : string) : bool :=
  match s with
  | String a (String b (String c EmptyString)) =>
      is_upper_letter a && is_upper_letter b && is_upper_letter c
  | _ => false
  end.

(** No string occurs twice. *)
Fixpoint distinct (l : list string) : bool :=
  match l with
  | [] => true
  | x :: l' => negb (existsb (String.eqb x) l') && distinct l'
  end.

(** The expectations of test/lib/format-monetary-amount-for-locale.js. *)
Definition test_expectations : list (string * string * Z * string) :=
  [("us", "USD", 0, "$0");
   ("us", "USD", 5, "$0.05");
   ("us", "USD", 50, "$0.50");
   ("us", "USD", 500, "$5.00");
   ("us", "USD", 5000, "$50.00");
   ("us", "USD", 50000, "$500.00");
   ("us", "USD", 500000, "$5,000.00");
   ("us", "USD", 5000000, "$50,000.00");
   ("us", "USD", 50000000, "$500,000.00");
   ("us", "USD", 500000000, "$5,000,000.00");
   ("us", "GBP", 123456, "£1,234.56");
   ("us", "JPY", 123456, "¥123,456");
   ("us", "EUR", 123456, "€1,234.56")].

(* ===================================================================== *)
(** ** Facts about the built-ins *)
(* ===================================================================== *)

Section CaseMapping.
Import JS.

Lemma upper_char_idem (c : ascii) : upper_char (upper_char c) = upper_char c.
Proof. destruct c as [[] [] [] [] [] [] [] []]; reflexivity. Qed.

Lemma lower_char_idem (c : ascii) : lower_char (lower_char c) = lower_char c.
Proof. destruct c as [[] [] [] [] [] [] [] []]; reflexivity. Qed.

Lemma upper_lower_char (c : ascii) : upper_char (lower_char c) = upper_char c.
Proof. destruct c as [[] [] [] [] [] [] [] []]; reflexivity. Qed.

Lemma map_string_compose (f g h : ascii -> ascii) (s : string) :
  (forall c, f (g c) = h c) -> map_string f (map_string g s) = map_string h s.
Proof.
  intros Hfg. induction s as [|c s IH]; simpl; [reflexivity|].
  now rewrite Hfg, IH.
Qed.

Lemma toUpperCase_idem (s : string) : toUpperCase (toUpperCase s) = toUpperCase s.
Proof. apply map_string_compose, upper_char_idem. Qed.

Lemma toLowerCase_idem (s : string) : toLowerCase (toLowerCase s) = toLowerCase s.
Proof. apply map_string_compose, lower_char_idem. Qed.

Lemma toUpperCase_toLowerCase (s : string) :
  toUpperCase (toLowerCase s) = toUpperCase s.
Proof. apply map_string_compose, upper_lower_char. Qed.

Lemma case_variant_upper (s t : string) :
  case_variant s t -> toUpperCase s = toUpperCase t.
Proof.
  unfold case_variant. intros H.
  rewrite <- (toUpperCase_toLowerCase s), H. apply toUpperCase_toLowerCase.
Qed.

End CaseMapping.

Section Counting.

Lemma count_char_app (c : ascii) (s t : string) :
  count_char c (s ++ t) = (count_char c s + count_char c t)%nat.
Proof. induction s as [|d s IH]; simpl; [reflexivity|]. rewrite IH. lia. Qed.

Lemma is_digit_neq (c d : ascii) :
  is_digit d = true -> is_digit c = false -> Ascii.eqb c d = false.
Proof.
  intros Hd Hc. destruct (Ascii.eqb_spec c d) as [->|]; [congruence|reflexivity].
Qed.

Lemma all_digits_count (c : ascii) (s : string) :
  is_digit c = false -> all_digits s = true -> count_char c s = 0%nat.
Proof.
  intros Hc. induction s as [|d s IH]; simpl; [reflexivity|].
  intros [Hd Hs]%andb_prop. rewrite (is_digit_neq c d Hd Hc), IH by exact Hs.
  reflexivity.
Qed.

Lemma all_digits_app (s t : string) :
  all_digits (s ++ t) = all_digits s && all_digits t.
Proof.
  induction s as [|c s IH]; simpl; [reflexivity|]. now rewrite IH, andb_assoc.
Qed.

(** Joining all-digit groups with a separator that is not [c] leaves no [c]. *)
Lemma count_char_join (c : ascii) (sep : string) (groups : list string) :
  is_digit c = false -> count_char c sep = 0%nat ->
  Forall (fun g => all_digits g = true) groups ->
  count_char c (JS.join sep groups) = 0%nat.
Proof.
  intros Hc Hsep Hall. unfold JS.join.
  induction Hall as [|g [|g' gs] Hg Hgs IH]; simpl.
  - reflexivity.
  - now apply all_digits_count.
  - rewrite !count_char_app, Hsep, (all_digits_count c g Hc Hg).
    simpl in IH. rewrite IH. reflexivity.
Qed.

End Counting.

(** What [toString] and [padStart] give on the numbers the code passes them:
    the values below 1000, checked one by one. *)
Section SmallNumbers.
Import JS.

Lemma below_spec (bound : nat) (check : Z -> bool) (n : Z) :
  below bound check = true -> 0 <= n < Z.of_nat bound -> check n = true.
Proof.
  unfold below. rewrite forallb_forall. intros Hall Hn.
  rewrite <- (Z2Nat.id n) by lia. apply Hall, in_seq. lia.
Qed.

Lemma group_head_below : below 1000 group_head_ok = true.
Proof. vm_compute. reflexivity. Qed.

Lemma group_tail_below : below 1000 group_tail_ok = true.
Proof. vm_compute. reflexivity. Qed.

Lemma minor_units_below : below 100 minor_units_ok = true.
Proof. vm_compute. reflexivity. Qed.

Lemma group_head_spec (n : Z) :
  0 <= n < 1000 ->
  let g := toString n in
  all_digits g = true /\ unpadded g = true /\
  (1 <= String.length g <= 3)%nat /\ decimal_value g = n.
Proof.
  intros Hn. pose proof (below_spec 1000 group_head_ok n group_head_below) as H.
  unfold group_head_ok in H. specialize (H ltac:(lia)).
  repeat (apply andb_prop in H; destruct H as [H ?]).
  repeat split; try assumption.
  - now apply Nat.leb_le.
  - now apply Nat.leb_le.
  - now apply Z.eqb_eq.
Qed.

Lemma group_tail_spec (n : Z) :
  0 <= n < 1000 ->
  let g := padStart 3 "0" (toString n) in
  all_digits g = true /\ String.length g = 3%nat /\ decimal_value g = n.
Proof.
  intros Hn. pose proof (below_spec 1000 group_tail_ok n group_tail_below) as H.
  unfold group_tail_ok in H. specialize (H ltac:(lia)).
  repeat (apply andb_prop in H; destruct H as [H ?]).
  repeat split; try assumption.
  - now apply Nat.eqb_eq.
  - now apply Z.eqb_eq.
Qed.

Lemma minor_units_spec (n : Z) :
  0 <= n < 100 ->
  let g := padStart 2 "0" (toString n) in
  all_digits g = true /\ String.length g = 2%nat /\ decimal_value g = n.
Proof.
  intros Hn. pose proof (below_spec 100 minor_units_ok n minor_units_below) as H.
  unfold minor_units_ok in H. specialize (H ltac:(lia)).
  repeat (apply andb_prop in H; destruct H as [H ?]).
  repeat split; try assumption.
  - now apply Nat.eqb_eq.
  - now apply Z.eqb_eq.
Qed.

End SmallNumbers.

Section FloorDivision.
Import JS.

Lemma round_half_even_floor (N D : Z) :
  N / D <= round_half_even N D <= N / D + 1.
Proof.
  unfold round_half_even.
  destruct (2 * (N mod D) <? D); [lia|].
  destruct (D <? 2 * (N mod D)); [lia|].
  destruct (Z.even (N / D)); lia.
Qed.

(** Rounding moves a quotient by at most one half. *)
Lemma round_half_even_near (N D : Z) :
  0 < D -> 2 * N - D <= 2 * (D * round_half_even N D) <= 2 * N + D.
Proof.
  intros HD. pose proof (Z.div_mod N D ltac:(lia)) as Hdm.
  pose proof (Z.mod_pos_bound N D HD) as Hr.
  unfold round_half_even.
  destruct (Z.ltb_spec (2 * (N mod D)) D); [lia|].
  destruct (Z.ltb_spec D (2 * (N mod D))); [lia|].
  destruct (Z.even (N / D)); lia.
Qed.

Lemma quotient_exponent_upper (x d : Z) :
  quotient_exponent x d <= Z.log2 x - Z.log2 d - 52.
Proof.
  unfold quotient_exponent.
  match goal with |- (if ?b then _ else _) <= _ => destruct b end; lia.
Qed.

Lemma Math_floor_div_nonneg (x d : Z) : 0 <= x -> 0 < d -> 0 <= Math_floor_div x d.
Proof.
  intros Hx Hd. unfold Math_floor_div.
  destruct (Z.eqb_spec x 0) as [|Hnz]; [lia|].
  rewrite Z.abs_eq, Z.sgn_pos by lia.
  set (e := quotient_exponent x d).
  destruct (Z.leb_spec 0 e) as [He|He].
  - assert (Hp : 0 < 2 ^ e) by (apply Z.pow_pos_nonneg; lia).
    assert (HD : 0 < d * 2 ^ e) by (apply Z.mul_pos_pos; lia).
    pose proof (round_half_even_floor x (d * 2 ^ e)) as [Hlo _].
    pose proof (Z.div_pos x (d * 2 ^ e) Hx HD). nia.
  - assert (Hs : 0 < 2 ^ (- e)) by (apply Z.pow_pos_nonneg; lia).
    pose proof (round_half_even_floor (x * 2 ^ (- e)) d) as [Hlo _].
    pose proof (Z.div_pos (x * 2 ^ (- e)) d ltac:(nia) Hd).
    apply Z.div_pos; lia.
Qed.

Lemma Math_floor_div_half (x : Z) : 1000 <= x -> 2 * Math_floor_div x 1000 <= x.
Proof. intros Hx. floor_div_half. Qed.

Lemma Math_floor_div_1000_bounds (x : Z) :
  1000 <= x -> 0 <= Math_floor_div x 1000 < x.
Proof.
  intros Hx. pose proof (Math_floor_div_half x Hx).
  pose proof (Math_floor_div_nonneg x 1000). lia.
Qed.

(** Below 2^53 the division of the code is the exact one: the rounding of
    the quotient never reaches the next integer. *)
Lemma Math_floor_div_exact (x d : Z) :
  0 <= x < 2 ^ 53 -> 2 <= d -> Math_floor_div x d = x / d.
Proof.
  intros Hx Hd. unfold Math_floor_div.
  destruct (Z.eqb_spec x 0) as [->|Hnz]; [reflexivity|].
  rewrite Z.abs_eq, Z.sgn_pos by lia.
  pose proof (quotient_exponent_upper x d) as He.
  assert (Hlx : Z.log2 x < 53) by (apply Z.log2_lt_pow2; lia).
  assert (Hld : 1 <= Z.log2 d) by (apply Z.log2_le_pow2; simpl; lia).
  set (e := quotient_exponent x d) in *.
  destruct (Z.leb_spec 0 e) as [He0|He0]; [lia|].
  rewrite Z.mul_1_l.
  assert (Hs : 2 ^ Z.log2 d <= 2 ^ (- e)) by (apply Z.pow_le_mono_r; lia).
  destruct (Z.log2_spec d ltac:(lia)) as [_ Hdhi].
  rewrite Z.pow_succ_r in Hdhi by lia.
  set (s := 2 ^ (- e)) in *.
  pose proof (round_half_even_near (x * s) d ltac:(lia)) as [Hlo Hhi].
  set (m := round_half_even (x * s) d) in *.
  pose proof (Z.div_mod x d ltac:(lia)) as Hdm.
  pose proof (Z.mod_pos_bound x d ltac:(lia)) as Hr.
  set (k := x / d) in *. set (r := x mod d) in *.
  symmetry. apply (Z.div_unique m s k (m - s * k)); [left|lia].
  assert (Hxs : x * s = d * k * s + r * s) by (rewrite Hdm; ring).
  split.
  - assert (2 * (d * (k * s)) - d <= 2 * (d * m)) by nia.
    assert (k * s - 1 < m) by nia. lia.
  - assert (Hrs : r * s <= (d - 1) * s) by (apply Z.mul_le_mono_nonneg_r; lia).
    assert (2 * (d * m) < 2 * (d * ((k + 1) * s))) by nia.
    assert (m < (k + 1) * s) by nia. lia.
Qed.

Lemma safe_quotient (x d : Z) : 0 <= x < 2 ^ 53 -> 2 <= d -> 0 <= x / d < 2 ^ 53.
Proof.
  intros Hx Hd. split; [apply Z.div_pos; lia|].
  apply Z.le_lt_trans with x; [|lia]. apply Z.div_le_upper_bound; nia.
Qed.

End FloorDivision.

(* ===================================================================== *)
(** ** Base-1000 digit grouping *)
(* ===================================================================== *)

Section Grouping.
Import JS Checkout.

Lemma groupDigitsAccum_small (n : Z) (acc : list string) :
  n < 1000 -> groupDigitsAccum n acc = toString n :: acc.
Proof.
  intros Hn. rewrite groupDigitsAccum_equation_1.
  destruct (Z_lt_dec n 1000); [reflexivity|lia].
Qed.

Lemma groupDigitsAccum_step (n : Z) (acc : list string) :
  1000 <= n ->
  groupDigitsAccum n acc =
  groupDigitsAccum (Math_floor_div n 1000)
                   (padStart 3 "0" (toString (Z.rem n 1000)) :: acc).
Proof.
  intros Hn. rewrite groupDigitsAccum_equation_1.
  destruct (Z_lt_dec n 1000); [lia|reflexivity].
Qed.

(** The accumulator only collects the groups already produced. *)
Lemma groupDigitsAccum_app (n : Z) :
  forall acc, groupDigitsAccum n acc = (groupDigits n ++ acc)%list.
Proof.
  unfold groupDigits. destruct (Z_lt_dec n 1000) as [Hlt|Hge].
  - intros acc. now rewrite !groupDigitsAccum_small.
  - pattern n. apply Z_lt_induction; [|lia].
    clear n Hge. intros n IH acc.
    destruct (Z_lt_dec n 1000) as [Hlt|Hge].
    + now rewrite !groupDigitsAccum_small.
    + pose proof (Math_floor_div_1000_bounds n ltac:(lia)) as Hq.
      rewrite (groupDigitsAccum_step n acc), (groupDigitsAccum_step n []) by lia.
      rewrite (IH _ Hq (_ :: acc)), (IH _ Hq [_]), <- app_assoc.
      reflexivity.
Qed.

Lemma groupDigits_small (n : Z) : n < 1000 -> groupDigits n = [toString n].
Proof. intros Hn. unfold groupDigits. now apply groupDigitsAccum_small. Qed.

Lemma groupDigits_step_rounded (n : Z) :
  1000 <= n ->
  groupDigits n =
  (groupDigits (Math_floor_div n 1000)
     ++ [padStart 3 "0" (toString (n mod 1000))])%list.
Proof.
  intros Hn. unfold groupDigits at 1.
  rewrite groupDigitsAccum_step, groupDigitsAccum_app by lia.
  rewrite Z.rem_mod_nonneg by lia. reflexivity.
Qed.

Lemma groupDigits_step (n : Z) :
  1000 <= n < 2 ^ 53 ->
  groupDigits n =
  (groupDigits (n / 1000) ++ [padStart 3 "0" (toString (n mod 1000))])%list.
Proof.
  intros Hn. rewrite groupDigits_step_rounded by lia.
  rewrite Math_floor_div_exact by lia. reflexivity.
Qed.

Lemma groups_value_snoc (groups : list string) (g : string) :
  groups_value (groups ++ [g])%list = 1000 * groups_value groups + decimal_value g.
Proof. unfold groups_value. now rewrite fold_left_app. Qed.

(** The shape of the grouping of a nonnegative integer, of any size. *)
Lemma groupDigits_shape (n : Z) : 0 <= n -> group_shape (groupDigits n).
Proof.
  intros Hn. generalize Hn. pattern n. apply Z_lt_induction; [|exact Hn].
  clear n Hn. intros n IH Hn.
  destruct (Z_lt_dec n 1000) as [Hlt|Hge].
  - rewrite groupDigits_small by lia.
    destruct (group_head_spec n) as (Hd & Hu & Hl & Hv); [lia|].
    exists (toString n), []. repeat split; try assumption; try lia.
    constructor.
  - pose proof (Math_floor_div_1000_bounds n ltac:(lia)) as Hq.
    destruct (IH _ Hq (proj1 Hq)) as (first & rest & Heq & Hd & Hu & Hl & Hrest).
    destruct (group_tail_spec (n mod 1000)) as (Hd' & Hl' & Hv').
    { apply Z.mod_pos_bound. lia. }
    rewrite groupDigits_step_rounded by lia.
    exists first, (rest ++ [padStart 3 "0" (toString (n mod 1000))])%list.
    rewrite Heq. repeat split; try assumption; try lia.
    apply Forall_app. split; [assumption|]. repeat constructor; assumption.
Qed.

(** The shape and the value of the grouping of a nonnegative integer below
    2^53. *)
Lemma groupDigits_well_grouped (n : Z) :
  0 <= n < 2 ^ 53 -> well_grouped n (groupDigits n).
Proof.
  intros Hn. generalize Hn. pattern n. apply Z_lt_induction; [|lia].
  clear n Hn. intros n IH Hn.
  destruct (Z_lt_dec n 1000) as [Hlt|Hge].
  - rewrite groupDigits_small by lia.
    destruct (group_head_spec n) as (Hd & Hu & Hl & Hv); [lia|].
    exists (toString n), []. repeat split; try assumption; try lia.
    constructor.
  - assert (Hq : 0 <= n / 1000 < n).
    { split; [apply Z.div_pos; lia|apply Z.div_lt; lia]. }
    destruct (IH _ Hq ltac:(lia)) as (first & rest & Heq & Hd & Hu & Hl & Hrest & Hv).
    destruct (group_tail_spec (n mod 1000)) as (Hd' & Hl' & Hv').
    { apply Z.mod_pos_bound. lia. }
    rewrite groupDigits_step by lia.
    exists first, (rest ++ [padStart 3 "0" (toString (n mod 1000))])%list.
    rewrite Heq. repeat split; try assumption; try lia.
    + apply Forall_app. split; [assumption|]. repeat constructor; assumption.
    + change (first :: rest ++ [padStart 3 "0" (toString (n mod 1000))])%list
        with ((first :: rest) ++ [padStart 3 "0" (toString (n mod 1000))])%list.
      rewrite groups_value_snoc, <- Heq, Hv, Hv'.
      pose proof (Z.div_mod n 1000). lia.
Qed.

Lemma groupDigits_all_digits (n : Z) :
  0 <= n -> Forall (fun g => all_digits g = true) (groupDigits n).
Proof.
  intros Hn.
  destruct (groupDigits_shape n Hn) as (first & rest & -> & Hd & _ & _ & Hrest).
  constructor; [assumption|].
  eapply Forall_impl; [|exact Hrest]. now intros g [Hg _].
Qed.

(** The older copy groups digits the same way. *)
Lemma Part000_groupDigitsAccum_eq (n : Z) :
  forall acc, Part000.groupDigitsAccum n acc = groupDigitsAccum n acc.
Proof.
  assert (Hsmall : forall m acc, m < 1000 ->
            Part000.groupDigitsAccum m acc = groupDigitsAccum m acc).
  { intros m acc Hm. rewrite groupDigitsAccum_small by lia.
    rewrite Part000.groupDigitsAccum_equation_1.
    destruct (Z_lt_dec m 1000); [reflexivity|lia]. }
  destruct (Z_lt_dec n 1000) as [Hlt|Hge]; [intros; now apply Hsmall|].
  pattern n. apply Z_lt_induction; [|lia].
  clear n Hge. intros n IH acc.
  destruct (Z_lt_dec n 1000) as [Hlt|Hge]; [now apply Hsmall|].
  rewrite groupDigitsAccum_step by lia.
  rewrite Part000.groupDigitsAccum_equation_1.
  destruct (Z_lt_dec n 1000); [lia|]. simpl.
  apply IH. apply Math_floor_div_1000_bounds. lia.
Qed.

Lemma Part000_groupDigits_eq (n : Z) : Part000.groupDigits n = groupDigits n.
Proof. apply Part000_groupDigitsAccum_eq. Qed.

End Grouping.

(* ===================================================================== *)
(** ** The formatting pipeline at locale [us] *)
(* ===================================================================== *)

Section Pipeline.
Import JS Checkout.

Lemma integer_is_integer (a : Z) : Number_isInteger (Finite (inject_Z a)) = true.
Proof. simpl. rewrite Z.mod_1_r. reflexivity. Qed.

Lemma integerValue_Int (a : Z) : integerValue (Finite (inject_Z a)) = a.
Proof. simpl. apply Z.div_1_r. Qed.

(** The dispatch of the entry point on an integer amount. *)
Lemma format_us (currencyCode : string) (a : Z) :
  format "us" currencyCode (Int a) =
  let normalizedCurrencyCode := toUpperCase currencyCode in
  if is_case normalizedCurrencyCode symbol_dispatch_set then
    formatSymbolAmount (Z.sgn a) (Z.abs a) "us" normalizedCurrencyCode
  else formatSymbolAmountCode (Z.sgn a) (Z.abs a) "us" normalizedCurrencyCode.
Proof.
  unfold format, formatMonetaryAmountForLocale, Int.
  rewrite integer_is_integer. unfold Math_abs, Math_sign.
  rewrite integerValue_Int. reflexivity.
Qed.

Lemma format_us_neg_zero (currencyCode : string) :
  format "us" currencyCode (VNumber NegZero) = format "us" currencyCode (Int 0).
Proof. reflexivity. Qed.

Lemma symbolForCurrency_normalized (c : string) :
  symbolForCurrency (toUpperCase c) = symbolForCurrency c.
Proof. unfold symbolForCurrency. now rewrite toUpperCase_idem. Qed.

(** The currencies with a symbol. *)
Lemma symbolForCurrency_cases (u : string) :
  toUpperCase u = u ->
  In u symbol_currencies \/
  symbolForCurrency u =
    Throw (ThrowString ("Symbol for currency code not defined: " ++ u)).
Proof.
  intros Hu. unfold symbolForCurrency, is_case, symbol_currencies.
  rewrite Hu. simpl existsb.
  repeat match goal with
         | |- context [String.eqb u ?code] =>
             destruct (String.eqb_spec u code); [left; subst; simpl; auto 10|]
         end.
  right. reflexivity.
Qed.

Lemma symbolForCurrency_Return (c sym : string) :
  symbolForCurrency c = Return sym -> In (toUpperCase c) symbol_currencies.
Proof.
  rewrite <- symbolForCurrency_normalized. intros H.
  destruct (symbolForCurrency_cases (toUpperCase c) (toUpperCase_idem c)) as [Hin|Hthrow];
    [exact Hin|congruence].
Qed.

(** A zero amount: the symbol and ["0"], whatever else is known of the
    currency. *)
Lemma formatSymbolAmount_zero (absoluteAmount : Z) (localeCode c sym : string) :
  symbolForCurrency c = Return sym ->
  formatSymbolAmount 0 absoluteAmount localeCode c = Return (sym ++ "0").
Proof. intros H. unfold formatSymbolAmount. rewrite H. reflexivity. Qed.

Lemma format_us_zero (c sym : string) :
  symbolForCurrency c = Return sym ->
  format "us" c (Int 0) = Return (with_code_suffix (toUpperCase c) (sym ++ "0")).
Proof.
  intros H. rewrite format_us. cbv zeta. unfold with_code_suffix, formatSymbolAmountCode.
  change (Z.sgn 0) with 0.
  rewrite (formatSymbolAmount_zero _ _ (toUpperCase c) sym)
    by (now rewrite symbolForCurrency_normalized).
  destruct (is_case (toUpperCase c) symbol_dispatch_set); reflexivity.
Qed.

(** The rendering of a positive amount, by kind of currency. *)
Lemma render_two_digit (u : string) (n : Z) :
  In u rendered_two_digit_currencies -> 0 < n ->
  renderAmountWithSeparatorsForCurrencyAndLocale n "us" u =
  Return (join "," (groupDigits (Math_floor_div n 100)) ++ "."
            ++ padStart 2 "0" (toString (n mod 100))).
Proof.
  intros Hin Hn.
  assert (Hr : 0 <= n mod 100 < 100) by (apply Z.mod_pos_bound; lia).
  unfold renderAmountWithSeparatorsForCurrencyAndLocale, digitGroupsOfAmountForCurrency.
  replace (n >=? 0) with true by (symmetry; rewrite Z.geb_leb; apply Z.leb_le; lia).
  replace (0 =? n) with false by (symmetry; apply Z.eqb_neq; lia).
  assert (Hbase : minorUnitsPerMajorUnitForCurrency u = Return 100).
  { simpl in Hin. intuition (subst; reflexivity). }
  assert (Hminor : minorUnitsAsDecimalForCurrency u (n mod 100) =
                   Return (padStart 2 "0" (toString (n mod 100)))).
  { assert (Hcase : is_case (toUpperCase u) ["AUD"; "CAD"; "EUR"; "GBP"; "NZD"; "USD"] = true).
    { simpl in Hin. intuition (subst; reflexivity). }
    unfold minorUnitsAsDecimalForCurrency. rewrite Hcase.
    replace (n mod 100 <? 0) with false by (symmetry; apply Z.ltb_ge; lia).
    replace (100 <=? n mod 100) with false by (symmetry; apply Z.leb_gt; lia).
    reflexivity. }
  simpl negb. cbv iota. rewrite Hbase. simpl bind. cbv iota.
  rewrite Z.rem_mod_nonneg by lia. rewrite Hminor. reflexivity.
Qed.

Lemma render_JPY (n : Z) :
  0 < n ->
  renderAmountWithSeparatorsForCurrencyAndLocale n "us" "JPY" =
  Return (join "," (groupDigits n)).
Proof.
  intros Hn.
  unfold renderAmountWithSeparatorsForCurrencyAndLocale, digitGroupsOfAmountForCurrency.
  replace (n >=? 0) with true by (symmetry; rewrite Z.geb_leb; apply Z.leb_le; lia).
  replace (0 =? n) with false by (symmetry; apply Z.eqb_neq; lia).
  reflexivity.
Qed.

Lemma render_BRL (n : Z) :
  0 < n ->
  renderAmountWithSeparatorsForCurrencyAndLocale n "us" "BRL" =
  Throw (ThrowString "Minor unit format for currency code not defined: BRL").
Proof.
  intros Hn.
  unfold renderAmountWithSeparatorsForCurrencyAndLocale, digitGroupsOfAmountForCurrency.
  replace (n >=? 0) with true by (symmetry; rewrite Z.geb_leb; apply Z.leb_le; lia).
  replace (0 =? n) with false by (symmetry; apply Z.eqb_neq; lia).
  reflexivity.
Qed.

Lemma render_AUD (n : Z) :
  0 < n ->
  renderAmountWithSeparatorsForCurrencyAndLocale n "us" "AUD" =
  Throw (ThrowString "Unknown currency exponent").
Proof.
  intros Hn.
  unfold renderAmountWithSeparatorsForCurrencyAndLocale, digitGroupsOfAmountForCurrency.
  replace (n >=? 0) with true by (symmetry; rewrite Z.geb_leb; apply Z.leb_le; lia).
  replace (0 =? n) with false by (symmetry; apply Z.eqb_neq; lia).
  reflexivity.
Qed.

Lemma formatSymbolAmount_nonzero (a : Z) (u : string) :
  a <> 0 ->
  formatSymbolAmount (Z.sgn a) (Z.abs a) "us" u =
  const symbol <- symbolForCurrency u ;;
  const rendered <- renderAmountWithSeparatorsForCurrencyAndLocale (Z.abs a) "us" u ;;
  Return (sign_prefix a ++ (symbol ++ rendered)).
Proof.
  intros Ha. unfold formatSymbolAmount, sign_prefix.
  replace (0 =? Z.sgn a) with false by (symmetry; apply Z.eqb_neq; lia).
  replace (Z.sgn a >=? 0) with (negb (a <? 0)).
  - destruct (a <? 0); reflexivity.
  - rewrite Z.geb_leb. destruct (Z.ltb_spec a 0); simpl; symmetry.
    + apply Z.leb_gt. lia.
    + apply Z.leb_le. lia.
Qed.

Lemma format_us_two_digit (u symbol : string) (a : Z) :
  In u rendered_two_digit_currencies -> a <> 0 ->
  symbolForCurrency u = Return symbol ->
  format "us" u (Int a) =
  Return (with_code_suffix u
            (sign_prefix a
               ++ (symbol
                     ++ (join "," (groupDigits (Math_floor_div (Z.abs a) 100)) ++ "."
                           ++ padStart 2 "0" (toString (Z.abs a mod 100)))))).
Proof.
  intros Hin Ha Hsym. rewrite format_us. cbv zeta.
  assert (Hu : toUpperCase u = u) by (simpl in Hin; intuition (subst; reflexivity)).
  rewrite Hu. unfold with_code_suffix, formatSymbolAmountCode.
  rewrite formatSymbolAmount_nonzero, Hsym, render_two_digit by (assumption || lia).
  destruct (is_case u symbol_dispatch_set); reflexivity.
Qed.

Lemma format_us_JPY (a : Z) :
  a <> 0 ->
  format "us" "JPY" (Int a) =
  Return (sign_prefix a ++ ("¥" ++ join "," (groupDigits (Z.abs a)))).
Proof.
  intros Ha. rewrite format_us. cbv zeta.
  change (toUpperCase "JPY") with "JPY".
  change (is_case "JPY" symbol_dispatch_set) with true. cbv iota.
  rewrite formatSymbolAmount_nonzero, render_JPY by lia. reflexivity.
Qed.

Lemma format_us_BRL (a : Z) :
  a <> 0 ->
  format "us" "BRL" (Int a) =
  Throw (ThrowString "Minor unit format for currency code not defined: BRL").
Proof.
  intros Ha. rewrite format_us. cbv zeta.
  change (toUpperCase "BRL") with "BRL".
  change (is_case "BRL" symbol_dispatch_set) with false. cbv iota.
  unfold formatSymbolAmountCode.
  rewrite formatSymbolAmount_nonzero, render_BRL by lia. reflexivity.
Qed.

Lemma format_us_AUD (a : Z) :
  a <> 0 ->
  format "us" "AUD" (Int a) = Throw (ThrowString "Unknown currency exponent").
Proof.
  intros Ha. rewrite format_us. cbv zeta.
  change (toUpperCase "AUD") with "AUD".
  change (is_case "AUD" symbol_dispatch_set) with false. cbv iota.
  unfold formatSymbolAmountCode.
  rewrite formatSymbolAmount_nonzero, render_AUD by lia. reflexivity.
Qed.

(** Codes outside the locale table fall through the [switch]. *)
Lemma separatorsForLocale_absent (localeCode : string) :
  ~ In (toLowerCase localeCode) locale_table_keys ->
  separatorsForLocale localeCode = Return None.
Proof.
  intros Hout. unfold separatorsForLocale, is_case. simpl existsb.
  repeat match goal with
         | |- context [String.eqb (toLowerCase localeCode) ?code] =>
             destruct (String.eqb_spec (toLowerCase localeCode) code) as [Heq|_];
             [exfalso; apply Hout; rewrite Heq; simpl; auto 10|]
         end.
  reflexivity.
Qed.

End Pipeline.

(** The same steps in the older copy, for the currencies both copies
    render. *)
Section Part000Pipeline.
Import JS.

Lemma Part000_format_us (currencyCode : string) (a : Z) :
  Part000.formatMonetaryAmountForLocale (VString "us") (VString currencyCode) (Int a) =
  let normalizedCurrencyCode := toUpperCase currencyCode in
  if is_case normalizedCurrencyCode symbol_dispatch_set then
    Part000.formatSymbolAmount (Z.sgn a) (Z.abs a) "us" normalizedCurrencyCode
  else Part000.formatSymbolAmountCode (Z.sgn a) (Z.abs a) "us" normalizedCurrencyCode.
Proof.
  unfold Part000.formatMonetaryAmountForLocale, Int.
  rewrite integer_is_integer. unfold Math_abs, Math_sign.
  rewrite integerValue_Int. reflexivity.
Qed.

Lemma Part000_render_two_digit (u : string) (n : Z) :
  In u ["USD"; "GBP"; "EUR"; "NZD"] -> 0 < n ->
  Part000.renderAmountWithSeparatorsForCurrencyAndLocale n "us" u =
  Return (join "," (Checkout.groupDigits (Math_floor_div n 100)) ++ "."
            ++ padStart 2 "0" (toString (n mod 100))).
Proof.
  intros Hin Hn.
  unfold Part000.renderAmountWithSeparatorsForCurrencyAndLocale,
    Part000.digitGroupsOfAmountForCurrency.
  replace (n >=? 0) with true by (symmetry; rewrite Z.geb_leb; apply Z.leb_le; lia).
  replace (0 =? n) with false by (symmetry; apply Z.eqb_neq; lia).
  assert (Hbase : Part000.minorUnitsPerMajorUnitForCurrency u = Return 100).
  { simpl in Hin. intuition (subst; reflexivity). }
  assert (Hminor : forall x, Part000.minorUnitsAsDecimalForCurrency u x =
                             Return (padStart 2 "0" (toString x))).
  { simpl in Hin. intuition (subst; reflexivity). }
  simpl negb. cbv iota. rewrite Hbase. simpl bind. cbv iota.
  rewrite Z.rem_mod_nonneg by lia. rewrite Hminor, Part000_groupDigits_eq.
  reflexivity.
Qed.

Lemma Part000_render_JPY (n : Z) :
  0 < n ->
  Part000.renderAmountWithSeparatorsForCurrencyAndLocale n "us" "JPY" =
  Return (join "," (Checkout.groupDigits n)).
Proof.
  intros Hn.
  unfold Part000.renderAmountWithSeparatorsForCurrencyAndLocale,
    Part000.digitGroupsOfAmountForCurrency.
  replace (n >=? 0) with true by (symmetry; rewrite Z.geb_leb; apply Z.leb_le; lia).
  replace (0 =? n) with false by (symmetry; apply Z.eqb_neq; lia).
  simpl. rewrite Part000_groupDigits_eq. reflexivity.
Qed.

Lemma Part000_formatSymbolAmount_nonzero (a : Z) (u : string) :
  a <> 0 ->
  Part000.formatSymbolAmount (Z.sgn a) (Z.abs a) "us" u =
  const symbol <- Part000.symbolForCurrency u ;;
  const rendered <-
    Part000.renderAmountWithSeparatorsForCurrencyAndLocale (Z.abs a) "us" u ;;
  Return (sign_prefix a ++ (symbol ++ rendered)).
Proof.
  intros Ha. unfold Part000.formatSymbolAmount, sign_prefix.
  replace (0 =? Z.sgn a) with false by (symmetry; apply Z.eqb_neq; lia).
  replace (Z.sgn a >=? 0) with (negb (a <? 0)).
  - destruct (a <? 0); reflexivity.
  - rewrite Z.geb_leb. destruct (Z.ltb_spec a 0); simpl; symmetry.
    + apply Z.leb_gt. lia.
    + apply Z.leb_le. lia.
Qed.

Lemma Part000_format_us_two_digit (u symbol : string) (a : Z) :
  In u ["USD"; "GBP"; "EUR"; "NZD"] -> a <> 0 ->
  Checkout.symbolForCurrency u = Return symbol ->
  Part000.formatMonetaryAmountForLocale (VString "us") (VString u) (Int a) =
  Return (with_code_suffix u
            (sign_prefix a
               ++ (symbol
                     ++ (join "," (Checkout.groupDigits (Math_floor_div (Z.abs a) 100)) ++ "."
                           ++ padStart 2 "0" (toString (Z.abs a mod 100)))))).
Proof.
  intros Hin Ha Hsym. rewrite Part000_format_us. cbv zeta.
  assert (Hu : toUpperCase u = u) by (simpl in Hin; intuition (subst; reflexivity)).
  assert (Hsym' : Part000.symbolForCurrency u = Return symbol).
  { rewrite <- Hsym. simpl in Hin. intuition (subst; reflexivity). }
  rewrite Hu. unfold with_code_suffix, Part000.formatSymbolAmountCode.
  rewrite Part000_formatSymbolAmount_nonzero, Hsym', Part000_render_two_digit
    by (assumption || lia).
  destruct (is_case u symbol_dispatch_set); reflexivity.
Qed.

Lemma Part000_format_us_JPY (a : Z) :
  a <> 0 ->
  Part000.formatMonetaryAmountForLocale (VString "us") (VString "JPY") (Int a) =
  Return (sign_prefix a ++ ("¥" ++ join "," (Checkout.groupDigits (Z.abs a)))).
Proof.
  intros Ha. rewrite Part000_format_us. cbv zeta.
  change (toUpperCase "JPY") with "JPY".
  change (is_case "JPY" symbol_dispatch_set) with true. cbv iota.
  rewrite Part000_formatSymbolAmount_nonzero, Part000_render_JPY by lia. reflexivity.
Qed.

End Part000Pipeline.

(** What a negative amount is formatted as, for the currencies that are
    rendered. *)
Section NegativeAmounts.
Import JS Checkout.

Lemma string_app_assoc (s t u : string) : (s ++ t) ++ u = s ++ (t ++ u).
Proof. induction s as [|c s IH]; simpl; [reflexivity|]. now rewrite IH. Qed.

Lemma grouped_no_minus (n : Z) :
  0 <= n -> count_char "-" (join "," (groupDigits n)) = 0%nat.
Proof.
  intros Hn. apply count_char_join; [reflexivity|reflexivity|].
  now apply groupDigits_all_digits.
Qed.

Lemma two_digit_body_no_minus (n : Z) :
  0 <= n ->
  count_char "-" (join "," (groupDigits (Math_floor_div n 100)) ++ "."
                    ++ padStart 2 "0" (toString (n mod 100))) = 0%nat.
Proof.
  intros Hn.
  destruct (minor_units_spec (n mod 100)) as (Hd & _ & _).
  { apply Z.mod_pos_bound. lia. }
  rewrite !count_char_app, grouped_no_minus by (apply Math_floor_div_nonneg; lia).
  rewrite (all_digits_count "-" _ eq_refl Hd). reflexivity.
Qed.

Lemma negative_two_digit (u symbol s : string) (a : Z) :
  In u rendered_two_digit_currencies -> a < 0 ->
  symbolForCurrency u = Return symbol ->
  format "us" u (Int a) = Return s ->
  exists rest, s = "-" ++ (symbol ++ rest) /\ count_char "-" rest = 0%nat.
Proof.
  intros Hin Ha Hsym Hs.
  rewrite (format_us_two_digit u symbol a Hin) in Hs by (assumption || lia).
  injection Hs as <-. unfold sign_prefix, with_code_suffix.
  replace (a <? 0) with true by (symmetry; apply Z.ltb_lt; lia).
  pose proof (two_digit_body_no_minus (Z.abs a) (Z.abs_nonneg a)) as Hbody.
  set (body := join "," (groupDigits (Math_floor_div (Z.abs a) 100)) ++ "."
                 ++ padStart 2 "0" (toString (Z.abs a mod 100))) in *.
  destruct (is_case u symbol_dispatch_set).
  - exists body. split; [reflexivity|exact Hbody].
  - exists (body ++ (" " ++ u)). split.
    + now rewrite (string_app_assoc "-"), (string_app_assoc symbol).
    + rewrite count_char_app, Hbody.
      simpl in Hin. intuition (subst; reflexivity).
Qed.

Lemma negative_JPY (s : string) (a : Z) :
  a < 0 -> format "us" "JPY" (Int a) = Return s ->
  exists rest, s = "-" ++ ("¥" ++ rest) /\ count_char "-" rest = 0%nat.
Proof.
  intros Ha Hs. rewrite format_us_JPY in Hs by lia.
  injection Hs as <-. unfold sign_prefix.
  replace (a <? 0) with true by (symmetry; apply Z.ltb_lt; lia).
  eexists. split; [reflexivity|]. apply grouped_no_minus, Z.abs_nonneg.
Qed.

(** The entry point works on the normalized codes only. *)
Lemma format_normalized (localeCode currencyCode : string) (amount : value) :
  format localeCode currencyCode amount =
  format (toLowerCase localeCode) (toUpperCase currencyCode) amount.
Proof.
  unfold format, formatMonetaryAmountForLocale.
  now rewrite toLowerCase_idem, toUpperCase_idem.
Qed.

Lemma format_us_without_symbol (u : string) (a : Z) (e : exn) :
  toUpperCase u = u -> symbolForCurrency u = Throw e ->
  format "us" u (Int a) = Throw e.
Proof.
  intros Hu Hthrow. rewrite format_us. cbv zeta. rewrite Hu.
  unfold formatSymbolAmountCode, formatSymbolAmount. rewrite Hthrow.
  destruct (is_case u symbol_dispatch_set); reflexivity.
Qed.

End NegativeAmounts.

(* ===================================================================== *)
(** ** Properties of the formatting routine *)
(* ===================================================================== *)

Section Properties.
Import JS Checkout.

Lemma two_decimals_b_spec (r : result string) :
  two_decimals_b r = true -> two_decimals r.
Proof.
  destruct r as [s|e]; simpl; [|discriminate].
  intros [Hcount Hafter]%andb_prop. exists s. split; [reflexivity|].
  split; [now apply Nat.eqb_eq|].
  destruct (after_first "." s); [|discriminate].
  simpl. f_equal. now apply Nat.eqb_eq.
Qed.

Lemma two_decimals_below :
  forallb (fun currencyCode =>
             below 100 (fun a => (a =? 0) || two_decimals_b (format "us" currencyCode (Int a))))
          rendered_two_digit_currencies = true.
Proof. vm_compute. reflexivity. Qed.

(** C1, as the specification states it, fails: BRL is listed among the
    two-digit currencies, and 5 minor units of BRL are not formatted. *)
Lemma C1_counterexample :
  In "BRL" two_digit_currencies /\ 0 < 5 < 100 /\
  format "us" "BRL" (Int 5) =
    Throw (ThrowString "Minor unit format for currency code not defined: BRL") /\
  ~ two_decimals (format "us" "BRL" (Int 5)).
Proof.
  split; [simpl; auto 10|]. split; [lia|].
  assert (H : format "us" "BRL" (Int 5) =
              Throw (ThrowString "Minor unit format for currency code not defined: BRL"))
    by (vm_compute; reflexivity).
  split; [exact H|]. rewrite H. intros (s & Hs & _). discriminate.
Qed.

(** C1, amended.  For USD, GBP, EUR, NZD and CAD and every integer [a] with
    [0 < a < 100], the formatted amount is a string with exactly one
    decimal separator and exactly two digits after it; for each of USD,
    GBP, EUR, NZD, CAD, AUD and BRL a zero amount is formatted without any
    decimal separator. *)
Theorem C1_two_decimals_below_one_major_unit :
  (forall (currencyCode : string) (a : Z),
      In currencyCode rendered_two_digit_currencies -> 0 < a < 100 ->
      two_decimals (format "us" currencyCode (Int a))) /\
  (forall currencyCode : string,
      In currencyCode two_digit_currencies ->
      no_decimals (format "us" currencyCode (Int 0))).
Proof.
  split.
  - intros currencyCode a Hin Ha.
    pose proof two_decimals_below as Hall. rewrite forallb_forall in Hall.
    pose proof (below_spec 100 _ a (Hall currencyCode Hin) ltac:(lia)) as Hb.
    simpl in Hb. apply orb_prop in Hb. destruct Hb as [Hb|Hb].
    + apply Z.eqb_eq in Hb. lia.
    + now apply two_decimals_b_spec.
  - intros currencyCode Hin. simpl in Hin.
    repeat (destruct Hin as [<-|Hin]; [eexists; split; vm_compute; reflexivity|]).
    contradiction.
Qed.

Lemma C1_witness :
  two_decimals (format "us" "CAD" (Int 7)) /\ no_decimals (format "us" "BRL" (Int 0)).
Proof.
  split.
  - apply (proj1 C1_two_decimals_below_one_major_unit "CAD" 7); [simpl; auto 10|lia].
  - apply (proj2 C1_two_decimals_below_one_major_unit "BRL"). simpl. auto 10.
Defined.

(** C2. An amount of BRL with a nonzero minor-unit remainder is not
    formatted: the call fails for want of a minor-unit rule for BRL. *)
Theorem C2_BRL_fractional_amount_fails (a : Z) :
  a mod 100 <> 0 ->
  format "us" "BRL" (Int a) =
  Throw (ThrowString "Minor unit format for currency code not defined: BRL").
Proof.
  intros Hrem. apply format_us_BRL. intros ->. apply Hrem. reflexivity.
Qed.

Lemma C2_witness :
  150 mod 100 <> 0 /\
  format "us" "BRL" (Int 150) =
  Throw (ThrowString "Minor unit format for currency code not defined: BRL").
Proof.
  assert (H : 150 mod 100 <> 0) by (vm_compute; discriminate).
  split; [exact H|]. exact (C2_BRL_fractional_amount_fails 150 H).
Defined.

(** C3. The two copies of the routine return the same string for every
    integer amount of USD, GBP, EUR, NZD and JPY at locale us. *)
Theorem C3_copies_agree (currencyCode : string) (a : Z) :
  In currencyCode ["USD"; "GBP"; "EUR"; "NZD"; "JPY"] ->
  exists s : string,
    Checkout.formatMonetaryAmountForLocale
      (VString "us") (VString currencyCode) (Int a) = Return s /\
    Part000.formatMonetaryAmountForLocale
      (VString "us") (VString currencyCode) (Int a) = Return s.
Proof.
  intros Hin. destruct (Z.eq_dec a 0) as [->|Ha].
  - simpl in Hin.
    repeat (destruct Hin as [<-|Hin]; [eexists; split; vm_compute; reflexivity|]).
    contradiction.
  - change (Checkout.formatMonetaryAmountForLocale
              (VString "us") (VString currencyCode) (Int a))
      with (format "us" currencyCode (Int a)).
    assert (Hcases : (In currencyCode ["USD"; "GBP"; "EUR"; "NZD"] /\
                      exists symbol, symbolForCurrency currencyCode = Return symbol)
                     \/ currencyCode = "JPY").
    { simpl in Hin. simpl.
      destruct Hin as [<-|[<-|[<-|[<-|[<-|[]]]]]];
        [left|left|left|left|right; reflexivity];
        (split; [auto 10|eexists; reflexivity]). }
    destruct Hcases as [[Htwo [symbol Hsym]]| ->].
    + eexists. split.
      * apply format_us_two_digit; [|exact Ha|exact Hsym].
        simpl in Htwo. simpl. intuition.
      * apply Part000_format_us_two_digit; assumption.
    + eexists. split.
      * now apply format_us_JPY.
      * now apply Part000_format_us_JPY.
Qed.

Lemma C3_witness :
  exists s : string,
    Checkout.formatMonetaryAmountForLocale
      (VString "us") (VString "NZD") (Int (-123456)) = Return s /\
    Part000.formatMonetaryAmountForLocale
      (VString "us") (VString "NZD") (Int (-123456)) = Return s.
Proof. apply (C3_copies_agree "NZD" (-123456)). simpl. auto 10. Defined.




(** C5. Zero is a special case: for a currency with a symbol, a zero
    amount is formatted as the symbol followed by ["0"] (and by a space
    and the code outside the symbol-dispatch set), with neither a sign nor
    a decimal separator; [0] and [-0] give the same result. *)
Theorem C5_zero_is_special (currencyCode symbol : string) :
  symbolForCurrency currencyCode = Return symbol ->
  let expected := with_code_suffix (toUpperCase currencyCode) (symbol ++ "0") in
  format "us" currencyCode (Int 0) = Return expected /\
  format "us" currencyCode (VNumber NegZero) = Return expected /\
  format "us" currencyCode (Int 0) = format "us" currencyCode (VNumber NegZero) /\
  count_char "-" expected = 0%nat /\
  count_char "." expected = 0%nat.
Proof.
  intros Hsym expected.
  assert (Hzero : format "us" currencyCode (Int 0) = Return expected)
    by now apply format_us_zero.
  rewrite format_us_neg_zero. repeat split; try exact Hzero.
  all: subst expected.
  all: pose proof (symbolForCurrency_Return _ _ Hsym) as Hin.
  all: rewrite <- symbolForCurrency_normalized in Hsym.
  all: simpl in Hin.
  all: repeat (destruct Hin as [Hin|Hin];
               [rewrite <- Hin in *; inversion Hsym; reflexivity|]).
  all: contradiction.
Qed.

Lemma C5_witness :
  symbolForCurrency "nzd" = Return "$" /\
  format "us" "nzd" (Int 0) = Return "$0 NZD" /\
  format "us" "nzd" (VNumber NegZero) = Return "$0 NZD".
Proof.
  assert (H : symbolForCurrency "nzd" = Return "$") by reflexivity.
  destruct (C5_zero_is_special "nzd" "$" H) as (H0 & Hneg & _).
  split; [exact H|]. split; [exact H0|exact Hneg].
Defined.

(** C6. A negative amount that is formatted at locale us starts with the
    one ["-"] of the result, the currency symbol comes right after it, and
    no other ["-"] follows; negative amounts of USD, GBP, EUR, NZD, CAD and
    JPY are formatted, and -500 minor units of USD as -$5.00. *)
Theorem C6_negative_amounts_one_minus :
  (forall (currencyCode : string) (a : Z) (s : string),
      a < 0 -> format "us" currencyCode (Int a) = Return s ->
      exists symbol rest,
        symbolForCurrency currencyCode = Return symbol /\
        s = "-" ++ (symbol ++ rest) /\
        count_char "-" (symbol ++ rest) = 0%nat /\
        count_char "-" s = 1%nat) /\
  (forall (currencyCode : string) (a : Z),
      In currencyCode rendered_currencies -> a < 0 ->
      exists s, format "us" currencyCode (Int a) = Return s) /\
  format "us" "USD" (Int (-500)) = Return "-$5.00".
Proof.
  split; [|split; [|vm_compute; reflexivity]]; cycle 1.
  { intros currencyCode a Hin Ha. simpl in Hin.
    destruct Hin as [<-|[<-|[<-|[<-|[<-|[<-|[]]]]]]];
      try solve [eexists; apply format_us_two_digit;
                 [simpl; auto 10|lia|reflexivity]].
    eexists. apply format_us_JPY. lia. }
  intros currencyCode a s Ha Hs.
  rewrite format_normalized in Hs. change (toLowerCase "us") with "us" in Hs.
  assert (Hmain : exists symbol rest,
             symbolForCurrency (toUpperCase currencyCode) = Return symbol /\
             s = "-" ++ (symbol ++ rest) /\
             count_char "-" symbol = 0%nat /\ count_char "-" rest = 0%nat).
  { pose proof (toUpperCase_idem currencyCode) as Hu.
    revert Hu Hs. generalize (toUpperCase currencyCode). intros u Hu Hs.
    destruct (symbolForCurrency_cases u Hu) as [Hin|Hthrow].
    - simpl in Hin.
      destruct Hin as [<-|[<-|[<-|[<-|[<-|[<-|[<-|[<-|[]]]]]]]]].
      + rewrite format_us_AUD in Hs by lia. discriminate.
      + destruct (negative_two_digit "CAD" "$" s a) as (rest & -> & Hrest);
          [simpl; auto 10|assumption|reflexivity|assumption|].
        exists "$", rest. repeat split; assumption.
      + destruct (negative_two_digit "NZD" "$" s a) as (rest & -> & Hrest);
          [simpl; auto 10|assumption|reflexivity|assumption|].
        exists "$", rest. repeat split; assumption.
      + destruct (negative_two_digit "USD" "$" s a) as (rest & -> & Hrest);
          [simpl; auto 10|assumption|reflexivity|assumption|].
        exists "$", rest. repeat split; assumption.
      + destruct (negative_two_digit "GBP" "£" s a) as (rest & -> & Hrest);
          [simpl; auto 10|assumption|reflexivity|assumption|].
        exists "£", rest. repeat split; assumption.
      + destruct (negative_two_digit "EUR" "€" s a) as (rest & -> & Hrest);
          [simpl; auto 10|assumption|reflexivity|assumption|].
        exists "€", rest. repeat split; assumption.
      + destruct (negative_JPY s a Ha Hs) as (rest & -> & Hrest).
        exists "¥", rest. repeat split; assumption.
      + rewrite format_us_BRL in Hs by lia. discriminate.
    - rewrite (format_us_without_symbol u a _ Hu Hthrow) in Hs. discriminate. }
  destruct Hmain as (symbol & rest & Hsym & -> & Hsymbol & Hrest).
  rewrite symbolForCurrency_normalized in Hsym.
  exists symbol, rest. split; [exact Hsym|]. split; [reflexivity|].
  assert (Hbody : count_char "-" (symbol ++ rest) = 0%nat)
    by (rewrite count_char_app; lia).
  split; [exact Hbody|].
  change ("-" ++ (symbol ++ rest)) with (String "-" (symbol ++ rest)).
  simpl. rewrite Hbody. reflexivity.
Qed.

Lemma C6_witness :
  -123456 < 0 /\
  format "us" "nzd" (Int (-123456)) = Return "-$1,234.56 NZD" /\
  exists symbol rest,
    symbolForCurrency "nzd" = Return symbol /\
    "-$1,234.56 NZD" = "-" ++ (symbol ++ rest) /\
    count_char "-" (symbol ++ rest) = 0%nat /\
    count_char "-" "-$1,234.56 NZD" = 1%nat.
Proof.
  assert (Hneg : -123456 < 0) by lia.
  assert (Hs : format "us" "nzd" (Int (-123456)) = Return "-$1,234.56 NZD")
    by (vm_compute; reflexivity).
  split; [exact Hneg|]. split; [exact Hs|].
  exact (proj1 C6_negative_amounts_one_minus "nzd" (-123456) _ Hneg Hs).
Defined.

(** C7. Normalization invariance: the result of a call, a returned string
    or a thrown error, is that of the call with the locale code in lower
    case and the currency code in upper case, so that calls whose codes
    differ only in the case of their letters have the same result;
    format('US','usd',500) is format('us','USD',500). *)
Theorem C7_normalization_invariance :
  (forall (localeCode currencyCode : string) (amount : value),
      format localeCode currencyCode amount =
      format (toLowerCase localeCode) (toUpperCase currencyCode) amount) /\
  (forall (localeCode localeCode' currencyCode currencyCode' : string) (amount : value),
      case_variant localeCode localeCode' ->
      case_variant currencyCode currencyCode' ->
      format localeCode currencyCode amount = format localeCode' currencyCode' amount) /\
  format "US" "usd" (Int 500) = format "us" "USD" (Int 500).
Proof.
  split; [exact format_normalized|]. split; [|vm_compute; reflexivity].
  intros l l' c c' amount Hl Hc.
  rewrite (format_normalized l c), (format_normalized l' c').
  unfold case_variant in Hl. rewrite Hl, (case_variant_upper c c' Hc). reflexivity.
Qed.

Lemma C7_witness :
  case_variant "Us" "uS" /\ case_variant "Nzd" "nZD" /\
  format "Us" "Nzd" (Int (-123456)) = format "uS" "nZD" (Int (-123456)).
Proof.
  assert (Hl : case_variant "Us" "uS") by reflexivity.
  assert (Hc : case_variant "Nzd" "nZD") by reflexivity.
  split; [exact Hl|]. split; [exact Hc|].
  exact (proj1 (proj2 C7_normalization_invariance) "Us" "uS" "Nzd" "nZD" _ Hl Hc).
Defined.

(** C8. Error scenarios at the entry point: an unknown currency code, a
    locale other than us, a non-integer amount (100.5) and a string amount
    each make the call throw, with the message of the unsupported
    currency, of the unhandled locale and of the invalid argument. *)
Theorem C8_error_scenarios :
  format "us" "ZZZ" (Int 100) =
    Throw (ThrowString "Symbol for currency code not defined: ZZZ") /\
  format "fr" "USD" (Int 100) = Throw (ThrowString "Unhandled locale") /\
  format "us" "USD" (VNumber (Finite (201 # 2))) =
    Throw (ThrowString "amount parameter must be an integer.") /\
  format "us" "USD" (VString "100") =
    Throw (ThrowString "amount parameter must be a number.").
Proof. repeat split; vm_compute; reflexivity. Qed.




(** C10. A zero amount consults only the symbol table: for every currency
    code with a symbol the call returns the symbol and ["0"] (with a space
    and the code outside the symbol-dispatch set); so 0 of AUD is
    formatted as $0 AUD and 0 of BRL as R$0 BRL, although every nonzero
    amount of AUD and of BRL makes the call throw. *)
Theorem C10_zero_needs_only_the_symbol :
  (forall currencyCode symbol : string,
      symbolForCurrency currencyCode = Return symbol ->
      format "us" currencyCode (Int 0) =
      Return (with_code_suffix (toUpperCase currencyCode) (symbol ++ "0"))) /\
  format "us" "AUD" (Int 0) = Return "$0 AUD" /\
  format "us" "BRL" (Int 0) = Return "R$0 BRL" /\
  (forall a : Z, a <> 0 ->
      format "us" "AUD" (Int a) = Throw (ThrowString "Unknown currency exponent")) /\
  (forall a : Z, a <> 0 ->
      format "us" "BRL" (Int a) =
      Throw (ThrowString "Minor unit format for currency code not defined: BRL")).
Proof.
  split; [exact format_us_zero|].
  split; [vm_compute; reflexivity|]. split; [vm_compute; reflexivity|].
  split; [exact format_us_AUD|exact format_us_BRL].
Qed.

Lemma C10_witness :
  symbolForCurrency "cad" = Return "$" /\
  format "us" "cad" (Int 0) = Return "$0 CAD" /\
  format "us" "AUD" (Int 100) = Throw (ThrowString "Unknown currency exponent").
Proof.
  assert (H : symbolForCurrency "cad" = Return "$") by reflexivity.
  split; [exact H|]. split.
  - exact (proj1 C10_zero_needs_only_the_symbol "cad" "$" H).
  - apply (proj1 (proj2 (proj2 (proj2 C10_zero_needs_only_the_symbol))) 100). lia.
Defined.

End Properties.

(* ===================================================================== *)
(** ** Further facts about the entry point *)
(* ===================================================================== *)

Section EntryPoint.
Import JS Checkout.

(** An integer-valued number is formatted as the integer it stands for. *)
Lemma format_integer (localeCode currencyCode : string) (n : number) :
  Number_isInteger n = true ->
  format localeCode currencyCode (VNumber n) =
  format localeCode currencyCode (Int (integerValue n)).
Proof.
  intros Hint. unfold format, formatMonetaryAmountForLocale, Int.
  rewrite Hint, integer_is_integer. unfold Math_abs, Math_sign.
  rewrite integerValue_Int. reflexivity.
Qed.

Lemma format_not_integer (localeCode currencyCode : string) (n : number) :
  Number_isInteger n = false ->
  format localeCode currencyCode (VNumber n) =
  Throw (ThrowString "amount parameter must be an integer.").
Proof.
  intros Hint. unfold format, formatMonetaryAmountForLocale. now rewrite Hint.
Qed.

Lemma format_unhandled (localeCode currencyCode : string) (a : Z) :
  toLowerCase localeCode <> "us" ->
  format localeCode currencyCode (Int a) = Throw (ThrowString "Unhandled locale").
Proof.
  intros Hl. unfold format, formatMonetaryAmountForLocale, Int.
  rewrite integer_is_integer. unfold is_case at 1. simpl existsb.
  destruct (String.eqb_spec (toLowerCase localeCode) "us"); [contradiction|reflexivity].
Qed.

Lemma format_locale_us (localeCode currencyCode : string) (amount : value) :
  toLowerCase localeCode = "us" ->
  format localeCode currencyCode amount = format "us" (toUpperCase currencyCode) amount.
Proof.
  intros Hl. rewrite format_normalized, Hl. reflexivity.
Qed.

(** Negating a positive amount only adds the sign in front. *)
Lemma format_us_negate (currencyCode : string) (a : Z) :
  0 < a ->
  format "us" currencyCode (Int (- a)) =
  map_result (fun s => "-" ++ s) (format "us" currencyCode (Int a)).
Proof.
  intros Ha. rewrite !format_us. cbv zeta.
  unfold formatSymbolAmountCode.
  rewrite !formatSymbolAmount_nonzero by lia.
  rewrite Z.abs_opp. unfold sign_prefix.
  replace (- a <? 0) with true by (symmetry; apply Z.ltb_lt; lia).
  replace (a <? 0) with false by (symmetry; apply Z.ltb_ge; lia).
  destruct (symbolForCurrency (toUpperCase currencyCode)) as [symbol|e];
    [|destruct (is_case _ _); reflexivity].
  simpl bind.
  destruct (renderAmountWithSeparatorsForCurrencyAndLocale _ _ _) as [rendered|e];
    destruct (is_case _ _); reflexivity.
Qed.

(** What a nonzero amount of a rendered currency is formatted as. *)
Lemma format_us_rendered (u : string) (a : Z) :
  In u rendered_currencies -> a <> 0 ->
  exists symbol body,
    symbolForCurrency u = Return symbol /\
    format "us" u (Int a) = Return (with_code_suffix u (sign_prefix a ++ (symbol ++ body))) /\
    (body = join "," (groupDigits (Math_floor_div (Z.abs a) 100)) ++ "."
              ++ padStart 2 "0" (toString (Z.abs a mod 100)) /\
     In u rendered_two_digit_currencies
     \/ body = join "," (groupDigits (Z.abs a)) /\ u = "JPY").
Proof.
  intros Hin Ha. simpl in Hin.
  destruct Hin as [<-|[<-|[<-|[<-|[<-|[<-|[]]]]]]];
    try solve [eexists; eexists; split; [reflexivity|]; split;
               [apply format_us_two_digit; [simpl; auto 10|exact Ha|reflexivity]
               |left; split; [reflexivity|simpl; auto 10]]].
  eexists; eexists; split; [reflexivity|]. split; [|right; split; reflexivity].
  rewrite format_us_JPY by exact Ha. reflexivity.
Qed.

(** The calls that return a string. *)
Lemma format_returns_iff (localeCode currencyCode : string) (a : Z) :
  (exists s, format localeCode currencyCode (Int a) = Return s) <->
  toLowerCase localeCode = "us" /\
  In (toUpperCase currencyCode) symbol_currencies /\
  (a = 0 \/ In (toUpperCase currencyCode) rendered_currencies).
Proof.
  split.
  - intros [s Hs].
    destruct (string_dec (toLowerCase localeCode) "us") as [Hl|Hl];
      [|rewrite format_unhandled in Hs by exact Hl; discriminate].
    split; [exact Hl|].
    rewrite (format_locale_us _ _ _ Hl) in Hs.
    pose proof (toUpperCase_idem currencyCode) as Hu.
    revert Hu Hs. generalize (toUpperCase currencyCode). intros u Hu Hs.
    destruct (symbolForCurrency_cases u Hu) as [Hin|Hthrow];
      [|rewrite (format_us_without_symbol u a _ Hu Hthrow) in Hs; discriminate].
    split; [exact Hin|].
    destruct (Z.eq_dec a 0) as [Hz|Hnz]; [now left|right].
    simpl in Hin. simpl.
    destruct Hin as [<-|[<-|[<-|[<-|[<-|[<-|[<-|[<-|[]]]]]]]]]; auto 10.
    + rewrite format_us_AUD in Hs by exact Hnz. discriminate.
    + rewrite format_us_BRL in Hs by exact Hnz. discriminate.
  - intros (Hl & Hin & Hrender).
    rewrite (format_locale_us _ _ _ Hl).
    destruct (Z.eq_dec a 0) as [->|Hnz].
    + simpl in Hin.
      destruct Hin as [<-|[<-|[<-|[<-|[<-|[<-|[<-|[<-|[]]]]]]]]];
        eexists; vm_compute; reflexivity.
    + destruct Hrender as [Hz|Hrender]; [contradiction|].
      destruct (format_us_rendered _ a Hrender Hnz) as (symbol & body & _ & Hs & _).
      eexists. exact Hs.
Qed.

End EntryPoint.

(* ===================================================================== *)
(** ** Reading the amount back from the formatted string *)
(* ===================================================================== *)

Section ReadingBack.
Import JS Checkout.

Lemma string_app_nil_r (s : string) : s ++ EmptyString = s.
Proof. induction s as [|c s IH]; simpl; [reflexivity|]. now rewrite IH. Qed.

Lemma digits_of_app (s t : string) : digits_of (s ++ t) = digits_of s ++ digits_of t.
Proof.
  induction s as [|c s IH]; simpl; [reflexivity|].
  destruct (is_digit c); simpl; now rewrite IH.
Qed.

Lemma digits_of_all_digits (s : string) : all_digits s = true -> digits_of s = s.
Proof.
  induction s as [|c s IH]; simpl; [reflexivity|].
  intros [Hc Hs]%andb_prop. rewrite Hc, IH by exact Hs. reflexivity.
Qed.

Lemma concat_empty_cons (g : string) (groups : list string) :
  String.concat EmptyString (g :: groups) = g ++ String.concat EmptyString groups.
Proof. destruct groups; simpl; [now rewrite string_app_nil_r|reflexivity]. Qed.

(** The digits of joined groups are the groups, one after the other. *)
Lemma digits_of_join (groups : list string) :
  Forall (fun g => all_digits g = true) groups ->
  digits_of (join "," groups) = String.concat EmptyString groups.
Proof.
  unfold join. induction 1 as [|g groups Hg Hall IH]; [reflexivity|].
  rewrite concat_empty_cons. destruct groups as [|g' groups].
  - simpl. rewrite string_app_nil_r. now apply digits_of_all_digits.
  - change (String.concat "," (g :: g' :: groups))
      with (g ++ String "," (String.concat "," (g' :: groups))).
    rewrite digits_of_app, digits_of_all_digits by exact Hg.
    change (digits_of (String "," ?x)) with (digits_of x).
    now rewrite IH.
Qed.

Lemma decimal_value_from_app (s t : string) :
  forall acc, decimal_value_from acc (s ++ t) =
              decimal_value_from (decimal_value_from acc s) t.
Proof. induction s as [|c s IH]; simpl; [reflexivity|]. intros acc. apply IH. Qed.

Lemma decimal_value_from_shift (t : string) :
  forall acc, decimal_value_from acc t =
              acc * 10 ^ Z.of_nat (String.length t) + decimal_value t.
Proof.
  unfold decimal_value. induction t as [|c t IH]; intros acc.
  - simpl. lia.
  - cbn [decimal_value_from String.length].
    rewrite (IH (10 * acc + digit_value c)), (IH (10 * 0 + digit_value c)).
    rewrite Nat2Z.inj_succ, Z.pow_succ_r by lia. ring.
Qed.

(** Groups of three digits after the first make up the base-1000 value. *)
Lemma decimal_value_from_groups (groups : list string) :
  Forall (fun g => all_digits g = true /\ String.length g = 3%nat) groups ->
  forall acc,
    decimal_value_from acc (String.concat EmptyString groups) =
    fold_left (fun acc g => 1000 * acc + decimal_value g) groups acc.
Proof.
  induction 1 as [|g groups [_ Hlen] Hall IH]; intros acc; [reflexivity|].
  rewrite concat_empty_cons, decimal_value_from_app, IH.
  cbn [fold_left]. f_equal.
  rewrite decimal_value_from_shift, Hlen. change (10 ^ Z.of_nat 3) with 1000. ring.
Qed.

Lemma decimal_value_grouped (n : Z) :
  0 <= n < 2 ^ 53 -> decimal_value (digits_of (join "," (groupDigits n))) = n.
Proof.
  intros Hn. rewrite digits_of_join by (apply groupDigits_all_digits; lia).
  destruct (groupDigits_well_grouped n Hn) as (first & rest & Heq & _ & _ & _ & Hrest & Hv).
  rewrite Heq in *. rewrite concat_empty_cons.
  unfold decimal_value. rewrite decimal_value_from_app, decimal_value_from_groups
    by exact Hrest.
  unfold groups_value in Hv. cbn [fold_left] in Hv.
  replace (decimal_value_from 0 first) with (1000 * 0 + decimal_value first)
    by (unfold decimal_value; ring).
  exact Hv.
Qed.

Lemma decimal_value_two_digit_body (n : Z) :
  0 <= n < 2 ^ 53 ->
  decimal_value (digits_of (join "," (groupDigits (Math_floor_div n 100)) ++ "."
                              ++ padStart 2 "0" (toString (n mod 100)))) = n.
Proof.
  intros Hn. rewrite Math_floor_div_exact by lia.
  destruct (minor_units_spec (n mod 100)) as (Hd & Hlen & Hv).
  { apply Z.mod_pos_bound. lia. }
  rewrite digits_of_app.
  change ("." ++ ?x) with (String "." x).
  change (digits_of (String "." ?x)) with (digits_of x).
  rewrite (digits_of_all_digits _ Hd).
  unfold decimal_value at 1. rewrite decimal_value_from_app.
  fold (decimal_value (digits_of (join "," (groupDigits (n / 100))))).
  rewrite decimal_value_grouped by (apply safe_quotient; lia).
  rewrite decimal_value_from_shift, Hlen, Hv. change (10 ^ Z.of_nat 2) with 100.
  pose proof (Z.div_mod n 100). lia.
Qed.

(** The symbols hold neither digits nor a sign nor a decimal separator. *)
Lemma symbol_plain (c symbol : string) :
  symbolForCurrency c = Return symbol ->
  digits_of symbol = EmptyString /\
  count_char "-" symbol = 0%nat /\ count_char "." symbol = 0%nat.
Proof.
  intros Hsym. pose proof (symbolForCurrency_Return _ _ Hsym) as Hin.
  rewrite <- symbolForCurrency_normalized in Hsym. simpl in Hin.
  repeat (destruct Hin as [Hin|Hin];
          [rewrite <- Hin in Hsym; inversion Hsym; repeat split; reflexivity|]).
  contradiction.
Qed.

Lemma code_plain (u : string) :
  In u symbol_currencies ->
  digits_of u = EmptyString /\ count_char "-" u = 0%nat.
Proof.
  intros Hin. simpl in Hin.
  repeat (destruct Hin as [<-|Hin]; [split; reflexivity|]). contradiction.
Qed.

Lemma digits_of_formatted (u sign symbol body : string) :
  digits_of sign = EmptyString -> digits_of symbol = EmptyString ->
  digits_of u = EmptyString ->
  digits_of (with_code_suffix u (sign ++ (symbol ++ body))) = digits_of body.
Proof.
  intros Hsign Hsymbol Hu. unfold with_code_suffix.
  destruct (is_case u symbol_dispatch_set).
  - now rewrite !digits_of_app, Hsign, Hsymbol.
  - rewrite !digits_of_app, Hsign, Hsymbol.
    change (digits_of (String " " u)) with (digits_of u).
    rewrite Hu. simpl. apply string_app_nil_r.
Qed.

Lemma count_minus_formatted (u sign symbol body : string) :
  count_char "-" symbol = 0%nat -> count_char "-" u = 0%nat ->
  count_char "-" body = 0%nat ->
  count_char "-" (with_code_suffix u (sign ++ (symbol ++ body))) = count_char "-" sign.
Proof.
  intros Hsymbol Hu Hbody. unfold with_code_suffix.
  destruct (is_case u symbol_dispatch_set).
  - rewrite !count_char_app, Hsymbol, Hbody. lia.
  - rewrite !count_char_app, Hsymbol, Hbody.
    simpl. lia.
Qed.

Lemma rendered_has_symbol (u : string) :
  In u rendered_currencies -> In u symbol_currencies.
Proof. simpl. intuition. Qed.

(** The digits of a formatted amount are those of its absolute value. *)
Lemma format_us_digits (u s : string) (a : Z) :
  toUpperCase u = u -> Z.abs a < 2 ^ 53 -> format "us" u (Int a) = Return s ->
  decimal_value (digits_of s) = Z.abs a.
Proof.
  intros Hu Hsafe Hs.
  assert (Hret : exists s, format "us" u (Int a) = Return s) by now exists s.
  apply format_returns_iff in Hret. rewrite Hu in Hret.
  destruct Hret as (_ & Hin & Hrender).
  destruct (Z.eq_dec a 0) as [->|Hnz].
  - simpl in Hin.
    repeat (destruct Hin as [<-|Hin];
            [vm_compute in Hs; injection Hs as <-; vm_compute; reflexivity|]).
    contradiction.
  - destruct Hrender as [Hz|Hrender]; [contradiction|].
    destruct (format_us_rendered u a Hrender Hnz) as (symbol & body & Hsym & Hfmt & Hbody).
    rewrite Hfmt in Hs. injection Hs as <-.
    destruct (symbol_plain _ _ Hsym) as (Hsd & _ & _).
    destruct (code_plain u (rendered_has_symbol u Hrender)) as (Hud & _).
    rewrite digits_of_formatted;
      [|unfold sign_prefix; destruct (a <? 0); reflexivity|exact Hsd|exact Hud].
    destruct Hbody as [[-> _]|[-> _]].
    + apply decimal_value_two_digit_body. lia.
    + apply decimal_value_grouped. lia.
Qed.

(** The only sign of a formatted amount is that of [sign_prefix]. *)
Lemma format_us_nonneg_no_minus (u s : string) (a : Z) :
  toUpperCase u = u -> 0 <= a -> format "us" u (Int a) = Return s ->
  count_char "-" s = 0%nat.
Proof.
  intros Hu Ha Hs.
  assert (Hret : exists s, format "us" u (Int a) = Return s) by now exists s.
  apply format_returns_iff in Hret. rewrite Hu in Hret.
  destruct Hret as (_ & Hin & Hrender).
  destruct (Z.eq_dec a 0) as [->|Hnz].
  - simpl in Hin.
    repeat (destruct Hin as [<-|Hin];
            [vm_compute in Hs; injection Hs as <-; vm_compute; reflexivity|]).
    contradiction.
  - destruct Hrender as [Hz|Hrender]; [contradiction|].
    destruct (format_us_rendered u a Hrender Hnz) as (symbol & body & Hsym & Hfmt & Hbody).
    rewrite Hfmt in Hs. injection Hs as <-.
    destruct (symbol_plain _ _ Hsym) as (_ & Hsm & _).
    destruct (code_plain u (rendered_has_symbol u Hrender)) as (_ & Hum).
    rewrite count_minus_formatted; [|exact Hsm|exact Hum|].
    + unfold sign_prefix.
      replace (a <? 0) with false by (symmetry; apply Z.ltb_ge; lia). reflexivity.
    + destruct Hbody as [[-> _]|[-> _]].
      * apply two_digit_body_no_minus, Z.abs_nonneg.
      * apply grouped_no_minus, Z.abs_nonneg.
Qed.

End ReadingBack.

(* ===================================================================== *)
(** ** The helpers on their own *)
(* ===================================================================== *)

Section Helpers.
Import JS Checkout.

Lemma separatorsForLocale_present (localeCode : string) :
  In (toLowerCase localeCode) locale_table_keys ->
  exists separators,
    separatorsForLocale localeCode = Return (Some separators) /\
    String.length (decimalSeparator separators) = 1%nat /\
    String.length (groupSeparator separators) = 1%nat /\
    decimalSeparator separators <> groupSeparator separators.
Proof.
  intros Hin. unfold separatorsForLocale. simpl in Hin.
  repeat (destruct Hin as [<-|Hin];
          [eexists; split; [reflexivity|]; repeat split; simpl; discriminate|]).
  contradiction.
Qed.

Lemma render_two_digit_at (localeCode u : string) (separators : Separators) (n : Z) :
  separatorsForLocale localeCode = Return (Some separators) ->
  In u rendered_two_digit_currencies -> 0 < n ->
  renderAmountWithSeparatorsForCurrencyAndLocale n localeCode u =
  Return (join (groupSeparator separators) (groupDigits (Math_floor_div n 100))
            ++ decimalSeparator separators
            ++ padStart 2 "0" (toString (n mod 100))).
Proof.
  intros Hsep Hin Hn.
  assert (Hr : 0 <= n mod 100 < 100) by (apply Z.mod_pos_bound; lia).
  unfold renderAmountWithSeparatorsForCurrencyAndLocale, digitGroupsOfAmountForCurrency.
  replace (n >=? 0) with true by (symmetry; rewrite Z.geb_leb; apply Z.leb_le; lia).
  replace (0 =? n) with false by (symmetry; apply Z.eqb_neq; lia).
  assert (Hbase : minorUnitsPerMajorUnitForCurrency u = Return 100).
  { simpl in Hin. intuition (subst; reflexivity). }
  assert (Hminor : minorUnitsAsDecimalForCurrency u (n mod 100) =
                   Return (padStart 2 "0" (toString (n mod 100)))).
  { assert (Hcase : is_case (toUpperCase u) ["AUD"; "CAD"; "EUR"; "GBP"; "NZD"; "USD"] = true).
    { simpl in Hin. intuition (subst; reflexivity). }
    unfold minorUnitsAsDecimalForCurrency. rewrite Hcase.
    replace (n mod 100 <? 0) with false by (symmetry; apply Z.ltb_ge; lia).
    replace (100 <=? n mod 100) with false by (symmetry; apply Z.leb_gt; lia).
    reflexivity. }
  simpl negb. cbv iota. rewrite Hbase. simpl bind. cbv iota.
  rewrite Z.rem_mod_nonneg by lia. rewrite Hminor. simpl bind.
  rewrite Hsep. destruct separators. reflexivity.
Qed.

Lemma render_JPY_at (localeCode : string) (separators : Separators) (n : Z) :
  separatorsForLocale localeCode = Return (Some separators) -> 0 < n ->
  renderAmountWithSeparatorsForCurrencyAndLocale n localeCode "JPY" =
  Return (join (groupSeparator separators) (groupDigits n)).
Proof.
  intros Hsep Hn.
  unfold renderAmountWithSeparatorsForCurrencyAndLocale, digitGroupsOfAmountForCurrency.
  replace (n >=? 0) with true by (symmetry; rewrite Z.geb_leb; apply Z.leb_le; lia).
  replace (0 =? n) with false by (symmetry; apply Z.eqb_neq; lia).
  simpl negb. cbv iota.
  change (minorUnitsPerMajorUnitForCurrency "JPY") with (@Return Z 1).
  simpl bind. rewrite Hsep. destruct separators. reflexivity.
Qed.

Lemma render_outside_table (localeCode u : string) (n : Z) :
  ~ In (toLowerCase localeCode) locale_table_keys ->
  In u rendered_currencies -> 0 < n ->
  renderAmountWithSeparatorsForCurrencyAndLocale n localeCode u = Throw TypeError.
Proof.
  intros Hout Hin Hn. pose proof (separatorsForLocale_absent _ Hout) as Hsep.
  assert (Hr : 0 <= n mod 100 < 100) by (apply Z.mod_pos_bound; lia).
  unfold renderAmountWithSeparatorsForCurrencyAndLocale, digitGroupsOfAmountForCurrency.
  replace (n >=? 0) with true by (symmetry; rewrite Z.geb_leb; apply Z.leb_le; lia).
  replace (0 =? n) with false by (symmetry; apply Z.eqb_neq; lia).
  simpl negb. cbv iota. simpl in Hin.
  destruct Hin as [<-|[<-|[<-|[<-|[<-|[<-|[]]]]]]];
    try (change (minorUnitsPerMajorUnitForCurrency ?c) with (@Return Z 100);
         simpl bind; cbv iota; rewrite Z.rem_mod_nonneg by lia;
         unfold minorUnitsAsDecimalForCurrency; simpl is_case; cbv iota;
         replace (n mod 100 <? 0) with false by (symmetry; apply Z.ltb_ge; lia);
         replace (100 <=? n mod 100) with false by (symmetry; apply Z.leb_gt; lia);
         simpl bind; rewrite Hsep; reflexivity).
  change (minorUnitsPerMajorUnitForCurrency "JPY") with (@Return Z 1).
  simpl bind. rewrite Hsep. reflexivity.
Qed.

(** The decomposer on a currency with two-digit minor units. *)
Lemma digitGroups_two_digit (u : string) (n : Z) :
  In u rendered_two_digit_currencies -> 0 <= n ->
  digitGroupsOfAmountForCurrency u n =
  Return {| integerPart := groupDigits (Math_floor_div n 100);
            fractionalPart := Some (padStart 2 "0" (toString (n mod 100))) |}.
Proof.
  intros Hin Hn.
  assert (Hminor : forall x, 0 <= x < 100 ->
            minorUnitsAsDecimalForCurrency u x = Return (padStart 2 "0" (toString x))).
  { intros x Hx.
    assert (Hcase : is_case (toUpperCase u) ["AUD"; "CAD"; "EUR"; "GBP"; "NZD"; "USD"] = true).
    { simpl in Hin. intuition (subst; reflexivity). }
    unfold minorUnitsAsDecimalForCurrency. rewrite Hcase.
    replace (x <? 0) with false by (symmetry; apply Z.ltb_ge; lia).
    replace (100 <=? x) with false by (symmetry; apply Z.leb_gt; lia).
    reflexivity. }
  unfold digitGroupsOfAmountForCurrency.
  replace (n >=? 0) with true by (symmetry; rewrite Z.geb_leb; apply Z.leb_le; lia).
  simpl negb. cbv iota.
  destruct (Z.eqb_spec 0 n) as [<-|Hnz].
  - rewrite Hminor by lia. reflexivity.
  - assert (Hbase : minorUnitsPerMajorUnitForCurrency u = Return 100).
    { simpl in Hin. intuition (subst; reflexivity). }
    rewrite Hbase. simpl bind. cbv iota.
    rewrite Z.rem_mod_nonneg by lia.
    rewrite Hminor by (apply Z.mod_pos_bound; lia). reflexivity.
Qed.

Lemma leading_digits_app (digits rest : string) :
  all_digits digits = true ->
  leading_digits (digits ++ rest) = (String.length digits + leading_digits rest)%nat.
Proof.
  induction digits as [|c digits IH]; simpl; [reflexivity|].
  intros [Hc Hd]%andb_prop. rewrite Hc, IH by exact Hd. reflexivity.
Qed.

Lemma after_first_app (c : ascii) (before after : string) :
  count_char c before = 0%nat ->
  after_first c (before ++ String c after) = Some after.
Proof.
  induction before as [|d before IH]; simpl.
  - now rewrite Ascii.eqb_refl.
  - destruct (Ascii.eqb c d); [discriminate|]. exact IH.
Qed.

Lemma grouped_no_point (n : Z) :
  0 <= n -> count_char "." (join "," (groupDigits n)) = 0%nat.
Proof.
  intros Hn. apply count_char_join; [reflexivity|reflexivity|].
  now apply groupDigits_all_digits.
Qed.

End Helpers.

(* ===================================================================== *)
(** ** The older copy against the newer one *)
(* ===================================================================== *)

Section Refinement.
Import JS.

Lemma Part000_symbolForCurrency_cases (u : string) :
  toUpperCase u = u ->
  In u ["AUD"; "CAD"; "NZD"; "USD"; "GBP"; "EUR"; "JPY"] \/
  Part000.symbolForCurrency u = Throw (ThrowString "Unknown currency symbol").
Proof.
  intros Hu. unfold Part000.symbolForCurrency, is_case.
  rewrite Hu. simpl existsb.
  repeat match goal with
         | |- context [String.eqb u ?code] =>
             destruct (String.eqb_spec u code); [left; subst; simpl; auto 10|]
         end.
  right. reflexivity.
Qed.

Lemma Part000_render_without_rule (u : string) (n : Z) :
  In u ["AUD"; "CAD"] -> 0 < n ->
  exists e, Part000.renderAmountWithSeparatorsForCurrencyAndLocale n "us" u = Throw e.
Proof.
  intros Hin Hn.
  unfold Part000.renderAmountWithSeparatorsForCurrencyAndLocale,
    Part000.digitGroupsOfAmountForCurrency.
  replace (n >=? 0) with true by (symmetry; rewrite Z.geb_leb; apply Z.leb_le; lia).
  replace (0 =? n) with false by (symmetry; apply Z.eqb_neq; lia).
  simpl in Hin. destruct Hin as [<-|[<-|[]]]; eexists; reflexivity.
Qed.

(** Whatever the older [formatSymbolAmount] returns, the newer one returns
    too. *)
Lemma Part000_formatSymbolAmount_refines (z : Z) (u s : string) :
  toUpperCase u = u ->
  Part000.formatSymbolAmount (Z.sgn z) (Z.abs z) "us" u = Return s ->
  Checkout.formatSymbolAmount (Z.sgn z) (Z.abs z) "us" u = Return s.
Proof.
  intros Hu Hs.
  destruct (Part000_symbolForCurrency_cases u Hu) as [Hin|Hthrow].
  - destruct (Z.eq_dec z 0) as [->|Hnz].
    + simpl in Hin.
      repeat (destruct Hin as [<-|Hin];
              [vm_compute in Hs; injection Hs as <-; vm_compute; reflexivity|]).
      contradiction.
    + rewrite Part000_formatSymbolAmount_nonzero in Hs by exact Hnz.
      rewrite formatSymbolAmount_nonzero by exact Hnz.
      assert (Hn : 0 < Z.abs z) by lia.
      simpl in Hin.
      destruct Hin as [<-|[<-|[<-|[<-|[<-|[<-|[<-|[]]]]]]]].
      * destruct (Part000_render_without_rule "AUD" (Z.abs z)) as [e He];
          [simpl; auto|exact Hn|]. rewrite He in Hs. discriminate.
      * destruct (Part000_render_without_rule "CAD" (Z.abs z)) as [e He];
          [simpl; auto|exact Hn|]. rewrite He in Hs. discriminate.
      * rewrite Part000_render_two_digit in Hs by (simpl; auto 10 || exact Hn).
        rewrite render_two_digit by (simpl; auto 10 || exact Hn). exact Hs.
      * rewrite Part000_render_two_digit in Hs by (simpl; auto 10 || exact Hn).
        rewrite render_two_digit by (simpl; auto 10 || exact Hn). exact Hs.
      * rewrite Part000_render_two_digit in Hs by (simpl; auto 10 || exact Hn).
        rewrite render_two_digit by (simpl; auto 10 || exact Hn). exact Hs.
      * rewrite Part000_render_two_digit in Hs by (simpl; auto 10 || exact Hn).
        rewrite render_two_digit by (simpl; auto 10 || exact Hn). exact Hs.
      * rewrite Part000_render_JPY in Hs by exact Hn.
        rewrite render_JPY by exact Hn. exact Hs.
  - unfold Part000.formatSymbolAmount in Hs. rewrite Hthrow in Hs. discriminate.
Qed.

End Refinement.

(* ===================================================================== *)
(** ** The table of currency names *)
(* ===================================================================== *)

Section CurrencyNames.
Import JS Checkout.

Lemma find_key_In (table : list (string * string)) (k v : string) :
  distinct (map fst table) = true -> In (k, v) table ->
  find (fun entry => String.eqb k (fst entry)) table = Some (k, v).
Proof.
  induction table as [|[k' v'] table IH]; simpl; [contradiction|].
  intros [Hfresh Hdistinct]%andb_prop [Heq|Hin].
  - injection Heq as -> ->. now rewrite String.eqb_refl.
  - destruct (String.eqb_spec k k') as [<-|Hneq]; [|now apply IH].
    exfalso. apply negb_true_iff in Hfresh.
    assert (Hex : existsb (String.eqb k) (map fst table) = true).
    { apply existsb_exists. exists k. split; [|apply String.eqb_refl].
      now apply (in_map fst table (k, v)). }
    congruence.
Qed.

Lemma find_key_Some (table : list (string * string)) (k : string) (entry : string * string) :
  find (fun entry => String.eqb k (fst entry)) table = Some entry ->
  In (k, snd entry) table.
Proof.
  intros Hfind. apply find_some in Hfind. destruct Hfind as [Hin Heq].
  apply String.eqb_eq in Heq. destruct entry as [k' v']. simpl in *. now subst.
Qed.

Lemma currency_names_well_formed :
  distinct (map fst currency_names) = true /\
  forallb is_currency_code (map fst currency_names) = true /\
  forallb (fun entry => negb (String.eqb (snd entry) EmptyString)) currency_names = true /\
  List.length currency_names = 163%nat.
Proof. repeat split; vm_compute; reflexivity. Qed.

Lemma supportedCurrencyName_normalized (c : string) :
  supportedCurrencyName (toUpperCase c) = supportedCurrencyName c.
Proof. unfold supportedCurrencyName. now rewrite toUpperCase_idem. Qed.

End CurrencyNames.

(* ===================================================================== *)
(** ** The cached answer of [isApplePayAvailable] *)
(* ===================================================================== *)

Section ApplePay.
Import Part001.

Lemma isApplePayAvailable_cached (window : Window) (st : State) (cached : bool) :
  canMakePayments st = Some cached ->
  isApplePayAvailable window st = (PaymentRequest window && cached, st).
Proof.
  intros Hc. unfold isApplePayAvailable. rewrite Hc.
  destruct (PaymentRequest window); reflexivity.
Qed.

Lemma calls_cached (windows : list Window) (st : State) (cached : bool) :
  canMakePayments st = Some cached ->
  calls windows st = (map (fun window => PaymentRequest window && cached) windows, st).
Proof.
  intros Hc. induction windows as [|window later IH]; simpl; [reflexivity|].
  rewrite (isApplePayAvailable_cached window st cached Hc), IH. reflexivity.
Qed.

End ApplePay.

(* ===================================================================== *)
(** ** Further properties of the code *)
(* ===================================================================== *)

Section FurtherProperties.
Import JS Checkout.

(** X1. Validation comes first: a locale that is not a string, then a
    currency that is not a string, then an amount that is not a number, then
    a number that is not an integer (a Number object, NaN, an infinity, a
    fraction) make the call throw the matching message, whatever the other
    arguments are, unknown locale or currency included. *)
Theorem X1_validation_comes_first :
  (forall localeCode currencyCode amount : value,
      isString localeCode = false ->
      formatMonetaryAmountForLocale localeCode currencyCode amount =
      Throw (ThrowString "locale parameter must be a string.")) /\
  (forall (localeCode : string) (currencyCode amount : value),
      isString currencyCode = false ->
      formatMonetaryAmountForLocale (VString localeCode) currencyCode amount =
      Throw (ThrowString "currency parameter must be a string.")) /\
  (forall (localeCode currencyCode : string) (amount : value),
      is_number_value amount = false ->
      format localeCode currencyCode amount =
      Throw (ThrowString "amount parameter must be a number.")) /\
  (forall (localeCode currencyCode : string) (n : number),
      format localeCode currencyCode (VNumberObject n) =
      Throw (ThrowString "amount parameter must be an integer.")) /\
  (forall (localeCode currencyCode : string) (n : number),
      Number_isInteger n = false ->
      format localeCode currencyCode (VNumber n) =
      Throw (ThrowString "amount parameter must be an integer.")) /\
  Number_isInteger NaN = false /\
  (forall negative, Number_isInteger (Infinity negative) = false).
Proof.
  split; [intros [] c v H; (discriminate || reflexivity)|].
  split; [intros l [] v H; (discriminate || reflexivity)|].
  split; [intros l c [] H; (discriminate || reflexivity)|].
  split; [reflexivity|].
  split; [exact format_not_integer|].
  split; reflexivity.
Qed.

Lemma X1_witness :
  formatMonetaryAmountForLocale VOther (VString "ZZZ") (VString "100") =
    Throw (ThrowString "locale parameter must be a string.") /\
  formatMonetaryAmountForLocale (VString "fr") (VNumber NaN) VOther =
    Throw (ThrowString "currency parameter must be a string.") /\
  format "fr" "ZZZ" VOther = Throw (ThrowString "amount parameter must be a number.") /\
  format "fr" "ZZZ" (VNumber (Finite (1 # 3))) =
    Throw (ThrowString "amount parameter must be an integer.").
Proof.
  destruct X1_validation_comes_first as (Hl & Hc & Hn & _ & Hi & _).
  split; [apply Hl; reflexivity|]. split; [apply Hc; reflexivity|].
  split; [apply Hn; reflexivity|]. apply Hi. reflexivity.
Defined.

(** X2. Only us is wired into the dispatch: with an integer amount, every
    locale code whose lower-case form is not us makes the call throw
    'Unhandled locale', whatever the currency; so do gb, jp, nz, au and br,
    the other keys of the locale table. *)
Theorem X2_only_us_is_dispatched :
  (forall (localeCode currencyCode : string) (n : number),
      Number_isInteger n = true -> toLowerCase localeCode <> "us" ->
      format localeCode currencyCode (VNumber n) =
      Throw (ThrowString "Unhandled locale")) /\
  (forall (key currencyCode : string) (a : Z),
      In key locale_table_keys -> key <> "us" ->
      format key currencyCode (Int a) = Throw (ThrowString "Unhandled locale")).
Proof.
  split.
  - intros l c n Hint Hl. rewrite format_integer by exact Hint.
    now apply format_unhandled.
  - intros key c a Hin Hkey. apply format_unhandled. simpl in Hin.
    repeat (destruct Hin as [<-|Hin]; [try discriminate; contradiction|]).
    contradiction.
Qed.

Lemma X2_witness :
  format "GB" "GBP" (VNumber NegZero) = Throw (ThrowString "Unhandled locale") /\
  format "br" "BRL" (Int 500) = Throw (ThrowString "Unhandled locale").
Proof.
  split.
  - apply (proj1 X2_only_us_is_dispatched "GB" "GBP" NegZero); [reflexivity|discriminate].
  - apply (proj2 X2_only_us_is_dispatched "br" "BRL" 500); [simpl; auto 10|discriminate].
Defined.

(** X3. A currency without a symbol: at locale us (in any letter case) and
    for every integer amount, zero included, an ASCII currency code whose
    upper-case form is none of AUD, CAD, NZD, USD, GBP, EUR, JPY, BRL makes
    the call throw 'Symbol for currency code not defined: ' followed by the
    upper-case code. *)
Theorem X3_currency_without_symbol
        (localeCode currencyCode : string) (n : number) :
  is_ascii currencyCode = true ->
  Number_isInteger n = true -> toLowerCase localeCode = "us" ->
  ~ In (toUpperCase currencyCode) symbol_currencies ->
  format localeCode currencyCode (VNumber n) =
  Throw (ThrowString
           ("Symbol for currency code not defined: " ++ toUpperCase currencyCode)).
Proof.
  intros _ Hint Hl Hout.
  rewrite format_integer, (format_locale_us _ _ _ Hl) by exact Hint.
  pose proof (toUpperCase_idem currencyCode) as Hu.
  destruct (symbolForCurrency_cases _ Hu) as [Hin|Hthrow]; [contradiction|].
  now apply format_us_without_symbol.
Qed.

Lemma X3_witness :
  is_ascii "chf" = true /\
  format "US" "chf" (Int 0) =
  Throw (ThrowString "Symbol for currency code not defined: CHF").
Proof.
  assert (Hascii : is_ascii "chf" = true) by reflexivity.
  split; [exact Hascii|].
  apply (X3_currency_without_symbol "US" "chf" (Finite (inject_Z 0)) Hascii);
    [reflexivity|reflexivity|].
  simpl. intros H. repeat (destruct H as [H|H]; [discriminate|]). exact H.
Defined.

(** X4. The calls that return: with an ASCII currency code and an integer
    amount [a], the call returns a string exactly when the locale is us (in
    any case), the currency has a symbol, and either [a] is zero or the
    currency is one of USD, GBP, EUR, NZD, CAD, JPY. *)
Theorem X4_calls_that_return (localeCode currencyCode : string) (a : Z) :
  is_ascii currencyCode = true ->
  ((exists s, format localeCode currencyCode (Int a) = Return s) <->
   toLowerCase localeCode = "us" /\
   In (toUpperCase currencyCode) symbol_currencies /\
   (a = 0 \/ In (toUpperCase currencyCode) rendered_currencies)).
Proof. intros _. apply format_returns_iff. Qed.

Lemma X4_witness :
  (exists s, format "Us" "cad" (Int (-7)) = Return s) /\
  ~ (exists s, format "us" "AUD" (Int 7) = Return s).
Proof.
  split.
  - apply (proj2 (X4_calls_that_return "Us" "cad" (-7) eq_refl)).
    split; [reflexivity|]. split; simpl; auto 10.
  - intros H. apply (proj1 (X4_calls_that_return "us" "AUD" 7 eq_refl)) in H.
    destruct H as (_ & _ & [H|H]); [discriminate|].
    simpl in H. repeat (destruct H as [H|H]; [discriminate|]). exact H.
Defined.

(** X5. What the entry point throws: a thrown value is always one of seven
    fixed strings or the message of a currency without symbol; the guards
    inside the helpers (the empty string of the minor-unit range check, the
    nonnegative-integer check, the yen minor-unit error, the TypeError of
    destructuring no separators) are never reached through the entry
    point. *)
Theorem X5_what_the_entry_point_throws
        (localeCode currencyCode amount : value) (e : exn) :
  formatMonetaryAmountForLocale localeCode currencyCode amount = Throw e ->
  (exists message,
      e = ThrowString message /\
      (In message entry_point_errors \/
       exists code, message = "Symbol for currency code not defined: " ++ code)) /\
  ~ In e internal_guard_errors.
Proof.
  intros He.
  assert (Hpos : exists message,
             e = ThrowString message /\
             (In message entry_point_errors \/
              exists code, message = "Symbol for currency code not defined: " ++ code)).
  { destruct localeCode as [l| | |];
      try (injection He as <-; eexists; split; [reflexivity|left; simpl; auto 10]).
    destruct currencyCode as [c| | |];
      try (injection He as <-; eexists; split; [reflexivity|left; simpl; auto 10]).
    destruct amount as [|n| |];
      try (injection He as <-; eexists; split; [reflexivity|left; simpl; auto 10]).
    change (format l c (VNumber n) = Throw e) in He.
    destruct (Number_isInteger n) eqn:Hint;
      [|rewrite format_not_integer in He by exact Hint;
        injection He as <-; eexists; split; [reflexivity|left; simpl; auto 10]].
    rewrite format_integer in He by exact Hint.
    set (a := integerValue n) in *.
    destruct (string_dec (toLowerCase l) "us") as [Hl|Hl];
      [|rewrite format_unhandled in He by exact Hl;
        injection He as <-; eexists; split; [reflexivity|left; simpl; auto 10]].
    pose proof (format_returns_iff l c a) as Hiff.
    rewrite (format_locale_us _ _ _ Hl) in He.
    pose proof (toUpperCase_idem c) as Hu.
    destruct (symbolForCurrency_cases _ Hu) as [Hin|Hthrow].
    - destruct (Z.eq_dec a 0) as [Hz|Hnz].
      { destruct (proj2 Hiff) as [s Hs]; [auto|].
        rewrite (format_locale_us _ _ _ Hl), He in Hs. discriminate. }
      simpl in Hin.
      destruct Hin as [Hc|[Hc|[Hc|[Hc|[Hc|[Hc|[Hc|[Hc|[]]]]]]]]].
      2-7: destruct (proj2 Hiff) as [s Hs];
        [split; [exact Hl|]; rewrite <- Hc; simpl; auto 20|];
        rewrite (format_locale_us _ _ _ Hl), He in Hs; discriminate.
      + rewrite <- Hc, format_us_AUD in He by exact Hnz.
        injection He as <-. eexists; split; [reflexivity|left; simpl; auto 10].
      + rewrite <- Hc, format_us_BRL in He by exact Hnz.
        injection He as <-. eexists; split; [reflexivity|left; simpl; auto 10].
    - rewrite (format_us_without_symbol _ a _ Hu Hthrow) in He.
      injection He as <-. eexists; split; [reflexivity|right; eexists; reflexivity]. }
  split; [exact Hpos|].
  destruct Hpos as (message & -> & [Hin|[code ->]]); simpl in *; intros Hguard.
  - repeat (destruct Hin as [<-|Hin];
            [repeat (destruct Hguard as [Hguard|Hguard]; [discriminate|]);
             exact Hguard|]).
    exact Hin.
  - repeat (destruct Hguard as [Hguard|Hguard]; [discriminate|]). exact Hguard.
Qed.

Lemma X5_witness :
  ~ In (ThrowString "Unknown currency exponent") internal_guard_errors.
Proof.
  apply (X5_what_the_entry_point_throws (VString "us") (VString "AUD") (Int 7)).
  vm_compute. reflexivity.
Defined.

Lemma two_decimals_shape (before digits after : string) :
  count_char "." before = 0%nat ->
  all_digits digits = true -> String.length digits = 2%nat ->
  count_char "." after = 0%nat -> leading_digits after = 0%nat ->
  two_decimals (Return (before ++ String "." (digits ++ after))).
Proof.
  intros Hbefore Hdigits Hlen Hafter Hlead. eexists. split; [reflexivity|]. split.
  - rewrite count_char_app, Hbefore. simpl.
    rewrite count_char_app, Hafter, (all_digits_count "." _ eq_refl Hdigits).
    reflexivity.
  - rewrite after_first_app by exact Hbefore. simpl.
    rewrite leading_digits_app, Hlen, Hlead by exact Hdigits. reflexivity.
Qed.

Lemma formatted_two_digit_shape (u sign symbol grouped digits : string) :
  with_code_suffix u (sign ++ (symbol ++ (grouped ++ "." ++ digits))) =
  (sign ++ (symbol ++ grouped))
    ++ String "." (digits ++ (if is_case u symbol_dispatch_set then EmptyString
                              else String " " u)).
Proof.
  unfold with_code_suffix. change ("." ++ digits) with (String "." digits).
  destruct (is_case u symbol_dispatch_set).
  - rewrite string_app_nil_r, !string_app_assoc. reflexivity.
  - rewrite !string_app_assoc. reflexivity.
Qed.

(** X6. The yen has no decimal part: every integer amount of JPY is
    formatted, as the sign, the symbol and the groups that [groupDigits]
    makes of its absolute value (with the rounded quotients of an amount
    from 2^53 on) joined by commas, and the result holds no decimal
    separator; 140737488355328992 yen are formatted with the groups 329 and
    992 at the end. *)
Theorem X6_yen_has_no_decimal_part (a : Z) :
  format "us" "JPY" (Int a) =
    Return (sign_prefix a ++ ("¥" ++ join "," (groupDigits (Z.abs a)))) /\
  count_char "." (sign_prefix a ++ ("¥" ++ join "," (groupDigits (Z.abs a)))) = 0%nat /\
  format "us" "JPY" (Int 140737488355328992) = Return "¥140,737,488,355,329,992".
Proof.
  split; [|split; [|vm_compute; reflexivity]].
  - destruct (Z.eq_dec a 0) as [->|Hnz]; [vm_compute; reflexivity|].
    now apply format_us_JPY.
  - rewrite !count_char_app, grouped_no_point by apply Z.abs_nonneg.
    unfold sign_prefix. destruct (a <? 0); reflexivity.
Qed.

(** X7. Two decimals for every nonzero amount: for USD, GBP, EUR, NZD and
    CAD and every nonzero integer amount, negative ones included, the
    formatted string has exactly one decimal separator, followed by exactly
    two digits. *)
Theorem X7_two_decimals_for_every_nonzero_amount (currencyCode : string) (a : Z) :
  In currencyCode rendered_two_digit_currencies -> a <> 0 ->
  two_decimals (format "us" currencyCode (Int a)).
Proof.
  intros Hin Hnz.
  assert (Hsym : exists symbol, symbolForCurrency currencyCode = Return symbol).
  { simpl in Hin. intuition (subst; eexists; reflexivity). }
  destruct Hsym as [symbol Hsym].
  rewrite (format_us_two_digit _ symbol a Hin Hnz Hsym), formatted_two_digit_shape.
  destruct (symbol_plain _ _ Hsym) as (_ & _ & Hpoint).
  destruct (minor_units_spec (Z.abs a mod 100)) as (Hd & Hlen & _).
  { apply Z.mod_pos_bound. lia. }
  apply two_decimals_shape; try assumption.
  - rewrite !count_char_app, Hpoint, grouped_no_point
      by (apply Math_floor_div_nonneg; [apply Z.abs_nonneg|lia]).
    unfold sign_prefix. destruct (a <? 0); reflexivity.
  - simpl in Hin. intuition (subst; reflexivity).
  - simpl in Hin. intuition (subst; reflexivity).
Qed.

Lemma X7_witness : two_decimals (format "us" "NZD" (Int (-1234567))).
Proof.
  apply (X7_two_decimals_for_every_nonzero_amount "NZD" (-1234567));
    [simpl; auto 10|discriminate].
Defined.

(** X8. The amount can be read back: whenever a call with an integer amount
    of absolute value below 2^53 returns a string, the decimal digits of
    that string, read in order, denote the absolute value of the amount. *)
Theorem X8_digits_denote_the_amount (localeCode currencyCode s : string) (a : Z) :
  Z.abs a < 2 ^ 53 ->
  format localeCode currencyCode (Int a) = Return s ->
  decimal_value (digits_of s) = Z.abs a.
Proof.
  intros Hsafe Hs.
  assert (Hret : exists s, format localeCode currencyCode (Int a) = Return s)
    by now exists s.
  apply format_returns_iff in Hret. destruct Hret as (Hl & _).
  rewrite (format_locale_us _ _ _ Hl) in Hs.
  exact (format_us_digits _ s a (toUpperCase_idem currencyCode) Hsafe Hs).
Qed.

Lemma X8_witness :
  Z.abs (-123456) < 2 ^ 53 /\
  decimal_value (digits_of "-$1,234.56 NZD") = Z.abs (-123456).
Proof.
  assert (Hsafe : Z.abs (-123456) < 2 ^ 53) by reflexivity.
  split; [exact Hsafe|].
  apply (X8_digits_denote_the_amount "us" "nzd" "-$1,234.56 NZD" (-123456) Hsafe).
  vm_compute. reflexivity.
Defined.

Lemma string_cons_neq (c : ascii) (s : string) : String c s <> s.
Proof.
  intros H. apply (f_equal String.length) in H. simpl in H. lia.
Qed.

(** X9. Negation only adds the sign: for a positive integer [a], the call
    on [-a] returns the string returned for [a] with ["-"] in front, and
    throws what the call on [a] throws. *)
Theorem X9_negation_adds_the_sign (localeCode currencyCode : string) (a : Z) :
  0 < a ->
  format localeCode currencyCode (Int (- a)) =
  map_result (fun s => "-" ++ s) (format localeCode currencyCode (Int a)).
Proof.
  intros Ha. destruct (string_dec (toLowerCase localeCode) "us") as [Hl|Hl].
  - rewrite !(format_locale_us _ _ _ Hl). now apply format_us_negate.
  - rewrite !format_unhandled by exact Hl. reflexivity.
Qed.

Lemma X9_witness :
  format "us" "EUR" (Int (- 123456)) =
  map_result (fun s => "-" ++ s) (format "us" "EUR" (Int 123456)).
Proof. apply (X9_negation_adds_the_sign "us" "EUR" 123456). lia. Defined.

(** X10. Formatting is injective in the amount: two integer amounts of
    absolute value below 2^53 for which calls with the same locale and
    currency return the same string are equal. *)
Theorem X10_formatting_is_injective
        (localeCode currencyCode s : string) (a b : Z) :
  Z.abs a < 2 ^ 53 -> Z.abs b < 2 ^ 53 ->
  format localeCode currencyCode (Int a) = Return s ->
  format localeCode currencyCode (Int b) = Return s ->
  a = b.
Proof.
  assert (Hopposite : forall x y : Z,
             0 < y -> x = - y ->
             format localeCode currencyCode (Int x) = Return s ->
             format localeCode currencyCode (Int y) = Return s -> False).
  { intros x y Hy -> Hx Hy'.
    assert (Hneg : format localeCode currencyCode (Int (- y)) =
                   map_result (fun s => "-" ++ s) (format localeCode currencyCode (Int y))).
    { destruct (string_dec (toLowerCase localeCode) "us") as [Hl|Hl].
      - rewrite !(format_locale_us _ _ _ Hl). now apply format_us_negate.
      - rewrite !format_unhandled by exact Hl. reflexivity. }
    rewrite Hx, Hy' in Hneg. simpl in Hneg. injection Hneg as Hneg.
    symmetry in Hneg. exact (string_cons_neq _ _ Hneg). }
  intros Hsafe_a Hsafe_b Ha Hb.
  assert (Habs : Z.abs a = Z.abs b).
  { assert (Hda : exists s, format localeCode currencyCode (Int a) = Return s) by now exists s.
    apply format_returns_iff in Hda. destruct Hda as (Hl & _).
    pose proof Ha as Ha'. pose proof Hb as Hb'.
    rewrite (format_locale_us _ _ _ Hl) in Ha'. rewrite (format_locale_us _ _ _ Hl) in Hb'.
    rewrite <- (format_us_digits _ s a (toUpperCase_idem currencyCode) Hsafe_a Ha').
    now rewrite <- (format_us_digits _ s b (toUpperCase_idem currencyCode) Hsafe_b Hb'). }
  destruct (Z.eq_dec a b) as [Heq|Hneq]; [exact Heq|exfalso].
  destruct (Z_lt_dec 0 b) as [Hb0|Hb0].
  - apply (Hopposite a b); (assumption || lia).
  - apply (Hopposite b a); (assumption || lia).
Qed.

Lemma X10_witness :
  format "us" "USD" (Int 500) = Return "$5.00" /\ 500 = 500.
Proof.
  assert (H : format "us" "USD" (Int 500) = Return "$5.00") by (vm_compute; reflexivity).
  assert (Hsafe : Z.abs 500 < 2 ^ 53) by reflexivity.
  split; [exact H|].
  exact (X10_formatting_is_injective "us" "USD" "$5.00" 500 500 Hsafe Hsafe H H).
Defined.

(** X11. Digit grouping without the accumulator: a number below 1000 is its
    own single group, unpadded; a number from 1000 on is the grouping of
    the floored double quotient by 1000 followed by its last three digits,
    and below 2^53 that quotient is the exact one; the older copy groups
    every integer the same way. *)
Theorem X11_grouping_without_accumulator :
  (forall n : Z, n < 1000 -> groupDigits n = [toString n]) /\
  (forall n : Z, 1000 <= n ->
      groupDigits n =
      (groupDigits (Math_floor_div n 1000)
         ++ [padStart 3 "0" (toString (n mod 1000))])%list) /\
  (forall n : Z, 1000 <= n < 2 ^ 53 ->
      groupDigits n =
      (groupDigits (n / 1000) ++ [padStart 3 "0" (toString (n mod 1000))])%list) /\
  (forall n : Z, Part000.groupDigits n = groupDigits n).
Proof.
  split; [exact groupDigits_small|].
  split; [exact groupDigits_step_rounded|].
  split; [exact groupDigits_step|exact Part000_groupDigits_eq].
Qed.

Lemma X11_witness :
  groupDigits 999 = [toString 999] /\
  groupDigits 140737488355328992 =
    (groupDigits 140737488355329 ++ [padStart 3 "0" (toString 992)])%list /\
  groupDigits 1002003 =
    (groupDigits (1002003 / 1000) ++ [padStart 3 "0" (toString (1002003 mod 1000))])%list.
Proof.
  destruct X11_grouping_without_accumulator as (Hsmall & Hrounded & Hexact & _).
  split; [apply (Hsmall 999); lia|]. split.
  - exact (Hrounded 140737488355328992 ltac:(lia)).
  - apply (Hexact 1002003). split; [lia|reflexivity].
Defined.

(** X12. The decomposer loses nothing: for USD, GBP, EUR, NZD and CAD and
    every nonnegative integer [n] below 2^53,
    [digitGroupsOfAmountForCurrency] returns the well-formed grouping of
    [n / 100] as integer part and two digits as fractional part, and 100
    times the value of the groups plus the value of the two digits is
    [n]. *)
Theorem X12_decomposer_loses_nothing (currencyCode : string) (n : Z) :
  In currencyCode rendered_two_digit_currencies -> 0 <= n < 2 ^ 53 ->
  exists groups digits,
    digitGroupsOfAmountForCurrency currencyCode n =
      Return {| integerPart := groups; fractionalPart := Some digits |} /\
    well_grouped (n / 100) groups /\
    all_digits digits = true /\ String.length digits = 2%nat /\
    100 * groups_value groups + decimal_value digits = n.
Proof.
  intros Hin Hn.
  destruct (minor_units_spec (n mod 100)) as (Hd & Hlen & Hv).
  { apply Z.mod_pos_bound. lia. }
  assert (Hq : 0 <= n / 100 < 2 ^ 53) by (apply safe_quotient; lia).
  pose proof (groupDigits_well_grouped _ Hq) as Hwg.
  exists (groupDigits (n / 100)), (padStart 2 "0" (toString (n mod 100))).
  split.
  { rewrite digitGroups_two_digit by (assumption || lia).
    now rewrite Math_floor_div_exact by lia. }
  split; [exact Hwg|]. split; [exact Hd|]. split; [exact Hlen|].
  destruct Hwg as (_ & _ & _ & _ & _ & _ & _ & Hvalue).
  rewrite Hvalue, Hv. pose proof (Z.div_mod n 100). lia.
Qed.

Lemma X12_witness :
  exists groups digits,
    digitGroupsOfAmountForCurrency "GBP" 123456 =
      Return {| integerPart := groups; fractionalPart := Some digits |} /\
    well_grouped (123456 / 100) groups /\
    all_digits digits = true /\ String.length digits = 2%nat /\
    100 * groups_value groups + decimal_value digits = 123456.
Proof.
  apply (X12_decomposer_loses_nothing "GBP" 123456);
    [simpl; auto 10|split; [lia|reflexivity]].
Defined.

(** X13. The guards of the decomposer: a negative amount is refused before
    the currency is looked at; a positive amount of JPY is grouped whole by
    [groupDigits] (whose quotients are rounded from 2^53 on), without
    fractional part; and a zero amount asks for the minor-unit rule even of
    JPY, so that the decomposer throws on zero yen. *)
Theorem X13_decomposer_guards :
  (forall (currencyCode : string) (n : Z),
      n < 0 ->
      digitGroupsOfAmountForCurrency currencyCode n =
      Throw (ThrowString "absoluteAmount parameter must be a nonnegative integer.")) /\
  (forall n : Z,
      0 < n ->
      digitGroupsOfAmountForCurrency "JPY" n =
      Return {| integerPart := groupDigits n; fractionalPart := None |}) /\
  digitGroupsOfAmountForCurrency "JPY" 0 =
    Throw (ThrowString "Currency does not have a minimal unit: JPY").
Proof.
  split; [|split; [|reflexivity]].
  - intros c n Hn. unfold digitGroupsOfAmountForCurrency.
    replace (n >=? 0) with false; [reflexivity|].
    symmetry. rewrite Z.geb_leb. apply Z.leb_gt. lia.
  - intros n Hn. unfold digitGroupsOfAmountForCurrency.
    replace (n >=? 0) with true by (symmetry; rewrite Z.geb_leb; apply Z.leb_le; lia).
    replace (0 =? n) with false by (symmetry; apply Z.eqb_neq; lia).
    reflexivity.
Qed.

Lemma X13_witness :
  digitGroupsOfAmountForCurrency "ZZZ" (-1) =
    Throw (ThrowString "absoluteAmount parameter must be a nonnegative integer.") /\
  digitGroupsOfAmountForCurrency "JPY" 123456 =
    Return {| integerPart := groupDigits 123456; fractionalPart := None |}.
Proof.
  split.
  - apply (proj1 X13_decomposer_guards "ZZZ" (-1)). lia.
  - apply (proj1 (proj2 X13_decomposer_guards) 123456). lia.
Defined.

(** X14. The range check of the minor-unit renderer: for AUD, CAD, EUR,
    GBP, NZD and USD (in any letter case) a number of minor units from 0 to
    99 is rendered as exactly two digits that denote it, and any other
    number makes the renderer throw the empty string. *)
Theorem X14_minor_units_range_check (currencyCode : string) (x : Z) :
  In (toUpperCase currencyCode) minor_unit_currencies ->
  (0 <= x < 100 ->
   exists digits,
     minorUnitsAsDecimalForCurrency currencyCode x = Return digits /\
     all_digits digits = true /\ String.length digits = 2%nat /\
     decimal_value digits = x) /\
  (x < 0 \/ 100 <= x ->
   minorUnitsAsDecimalForCurrency currencyCode x = Throw (ThrowString EmptyString)).
Proof.
  intros Hin.
  assert (Hcase : is_case (toUpperCase currencyCode) minor_unit_currencies = true).
  { apply existsb_exists. exists (toUpperCase currencyCode).
    split; [exact Hin|apply String.eqb_refl]. }
  unfold minorUnitsAsDecimalForCurrency.
  change ["AUD"; "CAD"; "EUR"; "GBP"; "NZD"; "USD"] with minor_unit_currencies.
  rewrite Hcase. split.
  - intros Hx. destruct (minor_units_spec x Hx) as (Hd & Hlen & Hv).
    replace (x <? 0) with false by (symmetry; apply Z.ltb_ge; lia).
    replace (100 <=? x) with false by (symmetry; apply Z.leb_gt; lia).
    eexists. split; [reflexivity|]. auto.
  - intros [Hx|Hx].
    + replace (x <? 0) with true by (symmetry; apply Z.ltb_lt; lia). reflexivity.
    + replace (100 <=? x) with true by (symmetry; apply Z.leb_le; lia).
      rewrite orb_true_r. reflexivity.
Qed.

Lemma X14_witness :
  (exists digits,
      minorUnitsAsDecimalForCurrency "aud" 7 = Return digits /\
      all_digits digits = true /\ String.length digits = 2%nat /\
      decimal_value digits = 7) /\
  minorUnitsAsDecimalForCurrency "aud" 100 = Throw (ThrowString EmptyString).
Proof.
  assert (Hin : In (toUpperCase "aud") minor_unit_currencies) by (simpl; auto 10).
  split.
  - apply (proj1 (X14_minor_units_range_check "aud" 7 Hin)). lia.
  - apply (proj2 (X14_minor_units_range_check "aud" 100 Hin)). lia.
Defined.

(** X15. The renderer at the locales of the table: for a locale with
    separators and a positive amount below 2^53, the rendering of USD, GBP,
    EUR, NZD and CAD joins the groups of the major units with the group
    separator of the locale and appends its decimal separator and the two
    digits; that of JPY joins the groups of the amount only, at any size;
    for a locale outside the table the rendering of these currencies throws
    a TypeError. *)
Theorem X15_renderer_at_table_locales :
  (forall (localeCode currencyCode : string) (separators : Separators) (n : Z),
      separatorsForLocale localeCode = Return (Some separators) ->
      In currencyCode rendered_two_digit_currencies -> 0 < n < 2 ^ 53 ->
      renderAmountWithSeparatorsForCurrencyAndLocale n localeCode currencyCode =
      Return (join (groupSeparator separators) (groupDigits (n / 100))
                ++ decimalSeparator separators
                ++ padStart 2 "0" (toString (n mod 100)))) /\
  (forall (localeCode : string) (separators : Separators) (n : Z),
      separatorsForLocale localeCode = Return (Some separators) -> 0 < n ->
      renderAmountWithSeparatorsForCurrencyAndLocale n localeCode "JPY" =
      Return (join (groupSeparator separators) (groupDigits n))) /\
  (forall (localeCode currencyCode : string) (n : Z),
      ~ In (toLowerCase localeCode) locale_table_keys ->
      In currencyCode rendered_currencies -> 0 < n ->
      renderAmountWithSeparatorsForCurrencyAndLocale n localeCode currencyCode =
      Throw TypeError).
Proof.
  split; [|split; [exact render_JPY_at|exact render_outside_table]].
  intros l c separators n Hsep Hin Hn.
  rewrite (render_two_digit_at l c separators n Hsep Hin) by lia.
  now rewrite Math_floor_div_exact by lia.
Qed.

Lemma X15_witness :
  renderAmountWithSeparatorsForCurrencyAndLocale 123456789 "br" "EUR" =
    Return "1.234.567,89" /\
  renderAmountWithSeparatorsForCurrencyAndLocale 123456789 "AU" "JPY" =
    Return "123 456 789" /\
  renderAmountWithSeparatorsForCurrencyAndLocale 123456789 "fr" "EUR" = Throw TypeError.
Proof.
  destruct X15_renderer_at_table_locales as (Htwo & Hyen & Hout).
  split; [|split].
  - exact (Htwo "br" "EUR" {| decimalSeparator := ","; groupSeparator := "." |}
                123456789 eq_refl (or_intror (or_intror (or_introl eq_refl)))
                (conj eq_refl eq_refl)).
  - exact (Hyen "AU" {| decimalSeparator := "."; groupSeparator := " " |}
                123456789 eq_refl eq_refl).
  - apply (Hout "fr" "EUR" 123456789); [|simpl; auto 10|reflexivity].
    simpl. intros H. repeat (destruct H as [H|H]; [discriminate|]). exact H.
Defined.

(** X16. The locale table: [separatorsForLocale] never throws; it returns
    separators exactly for the codes whose lower-case form is gb, jp, nz,
    us, au or br, and the decimal and the group separator it returns are
    two different single characters. *)
Theorem X16_locale_table :
  (forall localeCode : string,
      exists r, separatorsForLocale localeCode = Return r) /\
  (forall localeCode : string,
      (exists separators, separatorsForLocale localeCode = Return (Some separators)) <->
      In (toLowerCase localeCode) locale_table_keys) /\
  (forall (localeCode : string) (separators : Separators),
      separatorsForLocale localeCode = Return (Some separators) ->
      String.length (decimalSeparator separators) = 1%nat /\
      String.length (groupSeparator separators) = 1%nat /\
      decimalSeparator separators <> groupSeparator separators).
Proof.
  assert (Hdec : forall l, {In (toLowerCase l) locale_table_keys}
                           + {~ In (toLowerCase l) locale_table_keys})
    by (intros l; apply in_dec, string_dec).
  split; [|split].
  - intros l. destruct (Hdec l) as [Hin|Hout].
    + destruct (separatorsForLocale_present l Hin) as (separators & Hs & _).
      eexists. exact Hs.
    + eexists. now apply separatorsForLocale_absent.
  - intros l. split.
    + intros [separators Hs]. destruct (Hdec l) as [Hin|Hout]; [exact Hin|].
      rewrite (separatorsForLocale_absent l Hout) in Hs. discriminate.
    + intros Hin. destruct (separatorsForLocale_present l Hin) as (separators & Hs & _).
      eexists. exact Hs.
  - intros l separators Hs. destruct (Hdec l) as [Hin|Hout].
    + destruct (separatorsForLocale_present l Hin) as (separators' & Hs' & Hprops).
      rewrite Hs in Hs'. injection Hs' as <-. exact Hprops.
    + rewrite (separatorsForLocale_absent l Hout) in Hs. discriminate.
Qed.

Lemma X16_witness :
  String.length "," = 1%nat /\ String.length "." = 1%nat /\ "," <> ".".
Proof.
  exact (proj2 (proj2 X16_locale_table) "BR"
               {| decimalSeparator := ","; groupSeparator := "." |} eq_refl).
Defined.

(** X17. The newer copy extends the older one: whatever the arguments,
    when the older copy returns a string the newer copy returns the same
    string; the converse fails, for 500 minor units of CAD and for zero
    BRL. *)
Theorem X17_newer_copy_extends_older :
  (forall (localeCode currencyCode amount : value) (s : string),
      Part000.formatMonetaryAmountForLocale localeCode currencyCode amount = Return s ->
      Checkout.formatMonetaryAmountForLocale localeCode currencyCode amount = Return s) /\
  (Checkout.formatMonetaryAmountForLocale (VString "us") (VString "CAD") (Int 500) =
     Return "$5.00 CAD" /\
   Part000.formatMonetaryAmountForLocale (VString "us") (VString "CAD") (Int 500) =
     Throw (ThrowString "Unknown minor unit format")) /\
  (Checkout.formatMonetaryAmountForLocale (VString "us") (VString "BRL") (Int 0) =
     Return "R$0 BRL" /\
   Part000.formatMonetaryAmountForLocale (VString "us") (VString "BRL") (Int 0) =
     Throw (ThrowString "Unknown currency symbol")).
Proof.
  split; [|repeat split; vm_compute; reflexivity].
  intros [l|n1|n2|] [c|n3|n4|] [t|n|n5|] s Hs; try discriminate.
  unfold Part000.formatMonetaryAmountForLocale in Hs.
  unfold formatMonetaryAmountForLocale.
  destruct (Number_isInteger n); [|discriminate]. simpl negb in *. cbv iota zeta in *.
  unfold is_case at 1 in Hs. unfold is_case at 1. simpl existsb in *.
  destruct (String.eqb_spec (toLowerCase l) "us") as [Hl|Hl]; [|discriminate].
  rewrite Hl in *. simpl orb in *. cbv iota in *.
  unfold Math_sign, Math_abs in *.
  pose proof (toUpperCase_idem c) as Hu.
  destruct (is_case (toUpperCase c) ["USD"; "JPY"; "GBP"; "EUR"]).
  - now apply Part000_formatSymbolAmount_refines.
  - unfold Part000.formatSymbolAmountCode in Hs. unfold formatSymbolAmountCode.
    destruct (Part000.formatSymbolAmount _ _ _ _) as [formatted|e] eqn:Hformatted;
      [|discriminate].
    rewrite (Part000_formatSymbolAmount_refines _ _ _ Hu Hformatted). exact Hs.
Qed.

Lemma X17_witness :
  Checkout.formatMonetaryAmountForLocale (VString "US") (VString "nzd") (Int (-123456)) =
  Return "-$1,234.56 NZD".
Proof.
  apply (proj1 X17_newer_copy_extends_older). vm_compute. reflexivity.
Defined.

(** X18. The tests of the package: each expectation of
    test/lib/format-monetary-amount-for-locale.js holds of the newer copy
    and of the older one. *)
Theorem X18_package_tests_pass :
  Forall (fun expectation =>
            match expectation with
            | (localeCode, currencyCode, amount, expected) =>
                Checkout.formatMonetaryAmountForLocale
                  (VString localeCode) (VString currencyCode) (Int amount) =
                  Return expected /\
                Part000.formatMonetaryAmountForLocale
                  (VString localeCode) (VString currencyCode) (Int amount) =
                  Return expected
            end) test_expectations.
Proof. repeat constructor; vm_compute; reflexivity. Qed.

Lemma upper_letter_fixed (c : ascii) : is_upper_letter c = true -> upper_char c = c.
Proof. destruct c as [[] [] [] [] [] [] [] []]; intros H; (discriminate || reflexivity). Qed.

Lemma currency_code_normalized (k : string) :
  is_currency_code k = true -> toUpperCase k = k.
Proof.
  destruct k as [|a [|b [|c [|d k]]]]; try discriminate.
  cbn [is_currency_code]. intros [[Ha Hb]%andb_prop Hc]%andb_prop.
  unfold toUpperCase. cbn [map_string].
  now rewrite (upper_letter_fixed a Ha), (upper_letter_fixed b Hb), (upper_letter_fixed c Hc).
Qed.

(** X19. The table of currency names: a code of the table, in upper or in
    lower case, gets the name listed with it (no label of the [switch]
    hides a later one); for an ASCII code, a returned name is the one
    listed with the upper-case code, and is not empty, and a code whose
    upper-case form is not listed makes the function throw 'Currency not
    supported.'. *)
Theorem X19_currency_names :
  (forall code name : string,
      In (code, name) currency_names ->
      supportedCurrencyName code = Return name /\
      supportedCurrencyName (toLowerCase code) = Return name) /\
  (forall currencyCode name : string,
      is_ascii currencyCode = true ->
      supportedCurrencyName currencyCode = Return name ->
      In (toUpperCase currencyCode, name) currency_names /\ name <> EmptyString) /\
  (forall currencyCode : string,
      is_ascii currencyCode = true ->
      ~ In (toUpperCase currencyCode) (map fst currency_names) ->
      supportedCurrencyName currencyCode = Throw (ThrowString "Currency not supported.")).
Proof.
  destruct currency_names_well_formed as (Hdistinct & Hcodes & Hnames & _).
  split; [|split].
  - intros code name Hin.
    assert (Hcode : toUpperCase code = code).
    { apply currency_code_normalized.
      rewrite forallb_forall in Hcodes. apply Hcodes.
      now apply (in_map fst currency_names (code, name)). }
    assert (Hname : supportedCurrencyName code = Return name).
    { unfold supportedCurrencyName. rewrite Hcode.
      now rewrite (find_key_In _ code name Hdistinct Hin). }
    split; [exact Hname|].
    rewrite <- supportedCurrencyName_normalized, toUpperCase_toLowerCase.
    now rewrite supportedCurrencyName_normalized.
  - intros c name _ Hname. unfold supportedCurrencyName in Hname.
    destruct (find _ currency_names) as [entry|] eqn:Hfind; [|discriminate].
    injection Hname as <-. pose proof (find_key_Some _ _ _ Hfind) as Hin.
    split; [exact Hin|].
    rewrite forallb_forall in Hnames. specialize (Hnames _ Hin). simpl in Hnames.
    intros Hempty. rewrite Hempty in Hnames. discriminate.
  - intros c _ Hout. unfold supportedCurrencyName.
    destruct (find _ currency_names) as [entry|] eqn:Hfind; [|reflexivity].
    exfalso. apply Hout. pose proof (find_key_Some _ _ _ Hfind) as Hin.
    now apply (in_map fst currency_names (toUpperCase c, snd entry)).
Qed.

Lemma X19_witness :
  supportedCurrencyName "isk" = Return "Icelandic Króna" /\
  supportedCurrencyName "EURO" = Throw (ThrowString "Currency not supported.").
Proof.
  destruct X19_currency_names as (Hlisted & _ & Hother).
  split.
  - refine (proj2 (Hlisted "ISK" "Icelandic Króna" _)).
    apply (find_key_Some currency_names "ISK" ("ISK", "Icelandic Króna")).
    vm_compute. reflexivity.
  - apply (Hother "EURO" eq_refl). intros Hin.
    assert (H : existsb (String.eqb "EURO") (map fst currency_names) = true).
    { apply existsb_exists. exists "EURO". split; [exact Hin|apply String.eqb_refl]. }
    vm_compute in H. discriminate.
Defined.

(** X20. The formatter's currencies are named: every currency code for
    which [symbolForCurrency] returns a symbol has a name in
    [supportedCurrencyName]; of the 163 named currencies, 155 have no
    symbol, so that formatting them fails. *)
Theorem X20_formatter_currencies_are_named :
  (forall currencyCode symbol : string,
      symbolForCurrency currencyCode = Return symbol ->
      exists name, supportedCurrencyName currencyCode = Return name) /\
  List.length currency_names = 163%nat /\
  List.length (filter (fun entry => negb (is_case (fst entry) symbol_currencies))
                      currency_names) = 155%nat.
Proof.
  split; [|split; vm_compute; reflexivity].
  intros c symbol Hsym. pose proof (symbolForCurrency_Return _ _ Hsym) as Hin.
  rewrite <- supportedCurrencyName_normalized. simpl in Hin.
  repeat (destruct Hin as [<-|Hin]; [eexists; vm_compute; reflexivity|]).
  contradiction.
Qed.

Lemma X20_witness :
  exists name, supportedCurrencyName "brl" = Return name.
Proof.
  apply (proj1 X20_formatter_currencies_are_named "brl" "R$"). reflexivity.
Defined.

End FurtherProperties.

Section FurtherApplePay.
Import Part001.

(** X21. The answer is cached: once [canMakePayments] holds a value, every
    later call returns that value where [PaymentRequest] is present and
    [false] where it is not, without probing [ApplePaySession] and without
    changing the state; so the first probe that answers, or the first call
    that finds no [ApplePaySession], settles all later calls. *)
Theorem X21_answer_is_cached :
  (forall (windows : list Window) (st : State) (cached : bool),
      canMakePayments st = Some cached ->
      calls windows st =
      (map (fun window => PaymentRequest window && cached) windows, st)) /\
  (forall (window : Window) (later : list Window) (st : State) (truthy : bool),
      canMakePayments st = None -> PaymentRequest window = true ->
      ApplePaySession window = Some (Answers truthy) ->
      calls (window :: later) st =
      (truthy :: map (fun window' => PaymentRequest window' && truthy) later,
       {| canMakePayments := Some truthy; console_errors := console_errors st |})) /\
  (forall (window : Window) (later : list Window) (st : State),
      canMakePayments st = None -> PaymentRequest window = true ->
      ApplePaySession window = None ->
      calls (window :: later) st =
      (false :: map (fun _ => false) later,
       {| canMakePayments := Some false; console_errors := console_errors st |})).
Proof.
  split; [exact calls_cached|]. split.
  - intros window later st truthy Hc Hp Ha. cbn [calls].
    unfold isApplePayAvailable. rewrite Hp, Hc, Ha. cbn [negb].
    now rewrite (calls_cached later
                   {| canMakePayments := Some truthy;
                      console_errors := console_errors st |} truthy eq_refl).
  - intros window later st Hc Hp Ha. cbn [calls].
    unfold isApplePayAvailable. rewrite Hp, Hc, Ha. cbn [negb].
    rewrite (calls_cached later
               {| canMakePayments := Some false;
                  console_errors := console_errors st |} false eq_refl).
    do 2 f_equal.
    apply map_ext. intros w. apply andb_false_r.
Qed.

Lemma X21_witness :
  calls [ {| PaymentRequest := true; ApplePaySession := Some (Answers true) |};
          {| PaymentRequest := true; ApplePaySession := Some Raises |};
          {| PaymentRequest := false; ApplePaySession := None |};
          {| PaymentRequest := true; ApplePaySession := Some (Answers false) |} ]
        initial =
  ([true; true; false; true], {| canMakePayments := Some true; console_errors := 0 |}).
Proof.
  exact (proj1 (proj2 X21_answer_is_cached)
               {| PaymentRequest := true; ApplePaySession := Some (Answers true) |}
               _ initial true eq_refl eq_refl eq_refl).
Defined.

(** X22. Apple Pay is offered on evidence only: a call returns [true] only
    where [PaymentRequest] is present and either the cached answer is
    [true] or nothing is cached and the probe answers with a truthy value;
    a probe that throws gives [false], is reported once to the console and
    is not cached, so that the next call probes again. *)
Theorem X22_offered_on_evidence_only :
  (forall (window : Window) (st : State),
      fst (isApplePayAvailable window st) = true ->
      PaymentRequest window = true /\
      (canMakePayments st = Some true \/
       canMakePayments st = None /\ ApplePaySession window = Some (Answers true))) /\
  (forall (window next : Window) (st : State) (truthy : bool),
      canMakePayments st = None ->
      PaymentRequest window = true -> ApplePaySession window = Some Raises ->
      PaymentRequest next = true -> ApplePaySession next = Some (Answers truthy) ->
      calls [window; next] st =
      ([false; truthy],
       {| canMakePayments := Some truthy; console_errors := S (console_errors st) |})).
Proof.
  split.
  - intros window st. unfold isApplePayAvailable.
    destruct (PaymentRequest window); [|discriminate]. cbn [negb].
    destruct (canMakePayments st) as [[|]|]; simpl; try discriminate; auto.
    destruct (ApplePaySession window) as [[[|]|]|]; simpl; try discriminate; auto.
  - intros window next st truthy Hc Hp Ha Hp' Ha'. cbn [calls].
    unfold isApplePayAvailable. rewrite Hp, Hc, Ha. cbn [negb canMakePayments].
    rewrite Hp', Ha'. reflexivity.
Qed.

Lemma X22_witness :
  calls [ {| PaymentRequest := true; ApplePaySession := Some Raises |};
          {| PaymentRequest := true; ApplePaySession := Some (Answers true) |} ]
        initial =
  ([false; true], {| canMakePayments := Some true; console_errors := 1 |}).
Proof.
  exact (proj2 X22_offered_on_evidence_only
               {| PaymentRequest := true; ApplePaySession := Some Raises |}
               {| PaymentRequest := true; ApplePaySession := Some (Answers true) |}
               initial true eq_refl eq_refl eq_refl eq_refl eq_refl).
Defined.

End FurtherApplePay.
